(** * mkmock: hooks for injecting failures in unit tests

    A model of the macros of [mkmock.hpp].  The repository carries two
    designs of the header:

    - [Barrier]: [src/mkmock.hpp].  The singleton of a tag owns a
      [std::recursive_mutex]; [MKMOCK_WITH_ENABLED_HOOK] keeps it locked
      while the code snippet runs and keeps the saved value and the saved
      exception in the singleton.
    - [FineGrained]: [src/unnamed/part_000].  The singleton owns a
      [std::mutex] that is held only around the assignments; the saved value
      and the saved exception are locals of the macro expansion.

    Macros become functions in a state and exception monad.  A macro
    argument that is a piece of code ([CodeSnippet], [Deleter]) or an
    expression ([MockedValue]) is a computation of that monad, run where
    the expansion has it; a macro argument that is an lvalue ([Variable])
    is passed by value and its new content is returned. *)

From Stdlib Require Import ZArith NArith Lia List String.
From stdpp Require Import base functions strings.
Import ListNotations.

Set Default Proof Using "Type".

(** ** Exceptions, threads, outcomes *)

(** What a [throw] carries.  [catch (const std::exception &)] selects the
    objects whose class derives from [std::exception]; anything else
    ([throw 42], a class of the user's own) passes through the handler. *)
Inductive exn : Type :=
| std_exception (what : string)
| foreign (payload : Z).

Definition derives_from_std_exception (e : exn) : bool :=
  match e with
  | std_exception _ => true
  | foreign _ => false
  end.

Global Instance exn_eq_dec : EqDecision exn.
Proof. solve_decision. Defined.

(** The macro argument [Tag] is an identifier; [mkmock_##Tag] is one class,
    and one singleton, per identifier. *)
Definition tag : Type := string.

Definition thread_id : Type := nat.

(** How a piece of code ends: it falls off its end, it throws, it waits for
    a mutex that another thread owns, or it does what the C++ standard leaves
    undefined (unlocking a mutex the thread does not own, locking a
    [std::mutex] twice). *)
Inductive result (A : Type) : Type :=
| Normal (a : A)
| Raise (e : exn)
| Blocked
| Undefined.
Arguments Normal {A} a.
Arguments Raise {A} e.
Arguments Blocked {A}.
Arguments Undefined {A}.

(** ** The monad of the model *)

Definition M (S A : Type) : Type := S -> result A * S.

Definition ret {S A} (a : A) : M S A := fun s => (Normal a, s).

Definition bind {S A B} (c : M S A) (k : A -> M S B) : M S B :=
  fun s =>
    match c s with
    | (Normal a, s') => k a s'
    | (Raise e, s') => (Raise e, s')
    | (Blocked, s') => (Blocked, s')
    | (Undefined, s') => (Undefined, s')
    end.

Definition throw {S A} (e : exn) : M S A := fun s => (Raise e, s).

Definition gets {S A} (f : S -> A) : M S A := fun s => (Normal (f s), s).

Definition modify {S} (f : S -> S) : M S unit := fun s => (Normal tt, f s).

Declare Scope mock_scope.
Delimit Scope mock_scope with mock.
Notation "x <- c ;; k" := (bind c (fun x => k))
  (at level 100, c at next level, right associativity) : mock_scope.
Notation "c ;;; k" := (bind c (fun _ => k))
  (at level 100, right associativity) : mock_scope.
Open Scope mock_scope.

(** [try { body } catch (...) { handler }]: the handler sees whatever was
    thrown. *)
Definition try_catch_all {S A} (body : M S A) (handler : exn -> M S A)
  : M S A :=
  fun s =>
    match body s with
    | (Raise e, s') => handler e s'
    | other => other
    end.

(** What a hooked variable holds once the macro is over: what the macro
    assigned when it ran to its end, and the old content when it did not. *)
Definition variable_after {A} (variable : A) (r : result A) : A :=
  match r with
  | Normal a => a
  | _ => variable
  end.

(** ** Types a hook can hold *)

(** [Type value = {};]: value initialisation. *)
Class ValueInit (T : Type) : Type := value_init : T.

(** [Variable != nullptr] must compile: [MKMOCK_HOOK_ALLOC] is for pointers. *)
Class Nullable (T : Type) : Type := is_nullptr : T -> bool.

(** [int] *)
Global Instance Z_value_init : ValueInit Z := 0%Z.
(** pointers, as addresses; the null pointer is address 0 *)
Global Instance N_value_init : ValueInit N := 0%N.
Global Instance N_nullable : Nullable N := N.eqb 0%N.

(** ** [src/mkmock.hpp] *)
Module Barrier.

(** [std::recursive_mutex]: free, or owned by a thread that has locked it
    [S relocks] times. *)
Inductive recursive_mutex : Type :=
| Unlocked
| Locked (owner : thread_id) (relocks : nat).

(** [m.lock()] called by [me]; [None] when [me] has to wait. *)
Definition lock (me : thread_id) (m : recursive_mutex)
  : option recursive_mutex :=
  match m with
  | Unlocked => Some (Locked me 0)
  | Locked owner n =>
      if decide (owner = me) then Some (Locked me (S n)) else None
  end.

(** [m.unlock()] called by [me]; [None] when [me] does not own [m], which is
    undefined behaviour. *)
Definition unlock (me : thread_id) (m : recursive_mutex)
  : option recursive_mutex :=
  match m with
  | Unlocked => None
  | Locked owner n =>
      if decide (owner = me)
      then Some (match n with O => Unlocked | S n' => Locked me n' end)
      else None
  end.

Section Hooks.
Context {T R : Type} `{ValueInit T}.

(** The class that [MKMOCK_DEFINE_HOOK(Tag, Type)] defines. *)
Record mkmock : Type := {
  enabled : bool;
  value : T;
  saved_value : T;
  saved_exc : option exn;        (* std::exception_ptr: empty or an exception *)
  mutex : recursive_mutex;
}.

(** The default member initialisers. *)
Definition instance : mkmock :=
  {| enabled := false; value := value_init; saved_value := value_init;
     saved_exc := None; mutex := Unlocked |}.

(** The state of the process: the singleton of every tag ([static
    mkmock_##Tag instance] behind [singleton()]), and the rest [R] of the
    program's state, which the macros never touch but the code snippets and
    the deleters may. *)
Record World : Type := {
  singleton : tag -> mkmock;
  rest : R;
}.

(** No singleton has been touched: each is as its initialisers leave it. *)
Definition initial (r : R) : World :=
  {| singleton := fun _ => instance; rest := r |}.

Definition with_inst (t : tag) (f : mkmock -> mkmock) (w : World) : World :=
  {| singleton := <[t := f (singleton w t)]> (singleton w); rest := rest w |}.

Definition set_enabled (b : bool) (i : mkmock) : mkmock :=
  {| enabled := b; value := value i; saved_value := saved_value i;
     saved_exc := saved_exc i; mutex := mutex i |}.
Definition set_value (v : T) (i : mkmock) : mkmock :=
  {| enabled := enabled i; value := v; saved_value := saved_value i;
     saved_exc := saved_exc i; mutex := mutex i |}.
Definition set_saved_value (v : T) (i : mkmock) : mkmock :=
  {| enabled := enabled i; value := value i; saved_value := v;
     saved_exc := saved_exc i; mutex := mutex i |}.
Definition set_saved_exc (x : option exn) (i : mkmock) : mkmock :=
  {| enabled := enabled i; value := value i; saved_value := saved_value i;
     saved_exc := x; mutex := mutex i |}.
Definition set_mutex (m : recursive_mutex) (i : mkmock) : mkmock :=
  {| enabled := enabled i; value := value i; saved_value := saved_value i;
     saved_exc := saved_exc i; mutex := m |}.

(** [inst->mutex.lock()] *)
Definition mutex_lock (me : thread_id) (t : tag) : M World unit :=
  fun w =>
    match lock me (mutex (singleton w t)) with
    | Some m => (Normal tt, with_inst t (set_mutex m) w)
    | None => (Blocked, w)
    end.

(** [inst->mutex.unlock()] *)
Definition mutex_unlock (me : thread_id) (t : tag) : M World unit :=
  fun w =>
    match unlock me (mutex (singleton w t)) with
    | Some m => (Normal tt, with_inst t (set_mutex m) w)
    | None => (Undefined, w)
    end.

(** [std::unique_lock<std::recursive_mutex> _{inst->mutex};] and the scope it
    guards: the destructor unlocks when the scope is left, by its end or by
    an exception. *)
Definition unique_lock {A} (me : thread_id) (t : tag) (scope : M World A)
  : M World A :=
  mutex_lock me t ;;;
  fun w =>
    match scope w with
    | (Normal a, w') => (mutex_unlock me t ;;; ret a) w'
    | (Raise e, w') => (mutex_unlock me t ;;; throw e) w'
    | other => other
    end.

(** [MKMOCK_HOOK(Tag, Variable)].  [MKMOCK_HOOK_ENABLE] says which branch of
    the [#ifndef] the build takes. *)
Definition MKMOCK_HOOK (MKMOCK_HOOK_ENABLE : bool) (me : thread_id)
    (Tag : tag) (variable : T) : M World T :=
  if MKMOCK_HOOK_ENABLE then
    unique_lock me Tag
      (inst <- gets (fun w => singleton w Tag) ;;
       if enabled inst then ret (value inst) else ret variable)
  else ret variable.

(** [MKMOCK_HOOK_ALLOC(Tag, Variable, Deleter)] *)
Definition MKMOCK_HOOK_ALLOC `{Nullable T} (MKMOCK_HOOK_ENABLE : bool)
    (me : thread_id) (Tag : tag) (variable : T) (Deleter : T -> M World unit)
  : M World T :=
  if MKMOCK_HOOK_ENABLE then
    unique_lock me Tag
      (inst <- gets (fun w => singleton w Tag) ;;
       if enabled inst then
         (if negb (is_nullptr variable) then Deleter variable else ret tt) ;;;
         gets (fun w => value (singleton w Tag))
       else ret variable)
  else ret variable.

(** The first block of [MKMOCK_WITH_ENABLED_HOOK], after the lock.  The macro
    argument [MockedValue] is an expression, not a value: the expansion
    evaluates it in [inst->value = MockedValue], once [saved_value] is
    written and before [enabled] is set, and outside the [try].  What it
    throws leaves the macro there, the mutex still locked; [ret v] is an
    argument that is the value [v]. *)
Definition activate (Tag : tag) (MockedValue : M World T) : M World unit :=
  modify (with_inst Tag (set_saved_exc None)) ;;;
  modify (with_inst Tag (fun inst => set_saved_value (value inst) inst)) ;;;
  v <- MockedValue ;;
  modify (with_inst Tag (set_value v)) ;;;
  modify (with_inst Tag (set_enabled true)).

(** [try { CodeSnippet } catch (const std::exception &) { ... }] *)
Definition guarded (Tag : tag) (CodeSnippet : M World unit) : M World unit :=
  fun w =>
    match CodeSnippet w with
    | (Raise e, w') =>
        if derives_from_std_exception e
        then modify (with_inst Tag (set_saved_exc (Some e))) w'
        else (Raise e, w')
    | other => other
    end.

(** The last block of [MKMOCK_WITH_ENABLED_HOOK]. *)
Definition deactivate (me : thread_id) (Tag : tag) : M World unit :=
  modify (with_inst Tag (set_enabled false)) ;;;
  modify (with_inst Tag (fun inst => set_value (saved_value inst) inst)) ;;;
  modify (with_inst Tag (set_saved_value value_init)) ;;;
  saved_exc' <- gets (fun w => saved_exc (singleton w Tag)) ;;
  modify (with_inst Tag (set_saved_exc None)) ;;;
  mutex_unlock me Tag ;;;
  match saved_exc' with
  | Some e => throw e
  | None => ret tt
  end.

(** [MKMOCK_WITH_ENABLED_HOOK(Tag, MockedValue, CodeSnippet)] *)
Definition MKMOCK_WITH_ENABLED_HOOK (me : thread_id) (Tag : tag)
    (MockedValue : M World T) (CodeSnippet : M World unit) : M World unit :=
  mutex_lock me Tag ;;;
  activate Tag MockedValue ;;;
  guarded Tag CodeSnippet ;;;
  deactivate me Tag.

(** The state in which [CodeSnippet] starts, when the lock is granted and the
    argument is the value [MockedValue]. *)
Definition entered (me : thread_id) (Tag : tag) (MockedValue : T) (w : World)
  : World :=
  snd ((mutex_lock me Tag ;;; activate Tag (ret MockedValue)) w).

(** Two states with the same singletons and the same rest. *)
Definition same (w w' : World) : Prop :=
  (forall t, singleton w t = singleton w' t) /\ rest w = rest w'.

(** [enabled] and [saved_value] as a pair: a disabled hook saves nothing. *)
Definition paired (inst : mkmock) : Prop :=
  enabled inst = false -> saved_value inst = value_init.

(** The mutex is owned by [owner], locked more than [n] times. *)
Definition held (owner : thread_id) (n : nat) (inst : mkmock) : Prop :=
  exists k, mutex inst = Locked owner k /\ n <= k.

End Hooks.
Arguments mkmock T : clear implicits.
Arguments World T R : clear implicits.
#[global] Arguments with_inst {T R} t f w : simpl never.

End Barrier.

(** ** [src/unnamed/part_000] *)
Module FineGrained.

(** [std::mutex]: free, or owned by one thread. *)
Inductive std_mutex : Type :=
| Free
| Held (owner : thread_id).

Section Hooks.
Context {T R : Type} `{ValueInit T}.

(** The class that [MKMOCK_DEFINE_HOOK(Tag, Type)] defines. *)
Record mkmock : Type := {
  enabled : bool;
  value : T;
  mutex : std_mutex;
}.

Definition instance : mkmock :=
  {| enabled := false; value := value_init; mutex := Free |}.

Record World : Type := {
  singleton : tag -> mkmock;
  rest : R;
}.

Definition initial (r : R) : World :=
  {| singleton := fun _ => instance; rest := r |}.

Definition with_inst (t : tag) (f : mkmock -> mkmock) (w : World) : World :=
  {| singleton := <[t := f (singleton w t)]> (singleton w); rest := rest w |}.

Definition set_enabled (b : bool) (i : mkmock) : mkmock :=
  {| enabled := b; value := value i; mutex := mutex i |}.
Definition set_value (v : T) (i : mkmock) : mkmock :=
  {| enabled := enabled i; value := v; mutex := mutex i |}.
Definition set_mutex (m : std_mutex) (i : mkmock) : mkmock :=
  {| enabled := enabled i; value := value i; mutex := m |}.

(** Locking: the calling thread waits while another thread owns the mutex;
    locking a [std::mutex] the thread already owns is undefined. *)
Definition mutex_lock (me : thread_id) (t : tag) : M World unit :=
  fun w =>
    match mutex (singleton w t) with
    | Free => (Normal tt, with_inst t (set_mutex (Held me)) w)
    | Held owner => if decide (owner = me) then (Undefined, w) else (Blocked, w)
    end.

Definition mutex_unlock (me : thread_id) (t : tag) : M World unit :=
  fun w =>
    match mutex (singleton w t) with
    | Free => (Undefined, w)
    | Held owner =>
        if decide (owner = me)
        then (Normal tt, with_inst t (set_mutex Free) w)
        else (Undefined, w)
    end.

(** [std::unique_lock<std::mutex> _{inst->mutex};] and the scope it guards. *)
Definition unique_lock {A} (me : thread_id) (t : tag) (scope : M World A)
  : M World A :=
  mutex_lock me t ;;;
  fun w =>
    match scope w with
    | (Normal a, w') => (mutex_unlock me t ;;; ret a) w'
    | (Raise e, w') => (mutex_unlock me t ;;; throw e) w'
    | other => other
    end.

(** [MKMOCK_HOOK(Tag, Variable)] *)
Definition MKMOCK_HOOK (MKMOCK_HOOK_ENABLE : bool) (me : thread_id)
    (Tag : tag) (variable : T) : M World T :=
  if MKMOCK_HOOK_ENABLE then
    unique_lock me Tag
      (inst <- gets (fun w => singleton w Tag) ;;
       if enabled inst then ret (value inst) else ret variable)
  else ret variable.

(** [try { CodeSnippet } catch (const std::exception &) { saved_exc =
    std::current_exception(); }]; the result is the local [saved_exc]. *)
Definition guarded (CodeSnippet : M World unit) : M World (option exn) :=
  fun w =>
    match CodeSnippet w with
    | (Normal _, w') => (Normal None, w')
    | (Raise e, w') =>
        if derives_from_std_exception e
        then (Normal (Some e), w')
        else (Raise e, w')
    | (Blocked, w') => (Blocked, w')
    | (Undefined, w') => (Undefined, w')
    end.

(** The first block of [MKMOCK_WITH_ENABLED_HOOK]; the result is the local
    [SavedValue].  The macro argument [MockedValue] is an expression: the
    expansion evaluates it in [inst->value = MockedValue], under the lock
    guard, which unlocks when the expression throws. *)
Definition activate (me : thread_id) (Tag : tag) (MockedValue : M World T)
  : M World T :=
  unique_lock me Tag
    (SavedValue <- gets (fun w => value (singleton w Tag)) ;;
     v <- MockedValue ;;
     modify (with_inst Tag (set_value v)) ;;;
     modify (with_inst Tag (set_enabled true)) ;;;
     ret SavedValue).

(** The last block of [MKMOCK_WITH_ENABLED_HOOK]. *)
Definition deactivate (me : thread_id) (Tag : tag) (SavedValue : T)
  : M World unit :=
  unique_lock me Tag
    (modify (with_inst Tag (set_enabled false)) ;;;
     modify (with_inst Tag (set_value SavedValue))).

(** [MKMOCK_WITH_ENABLED_HOOK(Tag, MockedValue, CodeSnippet)].  [SavedValue]
    and [saved_exc] are locals of the expansion: they are bound here and are
    no part of the [World]. *)
Definition MKMOCK_WITH_ENABLED_HOOK (me : thread_id) (Tag : tag)
    (MockedValue : M World T) (CodeSnippet : M World unit) : M World unit :=
  SavedValue <- activate me Tag MockedValue ;;
  saved_exc <- guarded CodeSnippet ;;
  deactivate me Tag SavedValue ;;;
  match saved_exc with
  | Some e => throw e
  | None => ret tt
  end.

(** The state in which [CodeSnippet] starts, when the lock is granted and the
    argument is the value [MockedValue]. *)
Definition entered (me : thread_id) (Tag : tag) (MockedValue : T) (w : World)
  : World :=
  snd (activate me Tag (ret MockedValue) w).

Definition same (w w' : World) : Prop :=
  (forall t, singleton w t = singleton w' t) /\ rest w = rest w'.

End Hooks.
Arguments mkmock T : clear implicits.
Arguments World T R : clear implicits.
#[global] Arguments with_inst {T R} t f w : simpl never.

End FineGrained.

(** ** Code that uses the macros *)

(** What the model keeps of the rest of the program's state: the pointers
    handed to the deleter, and the values the snippets read back from their
    hooked variables, both in order. *)
Record Client (T : Type) : Type := {
  freed : list T;
  observed : list (tag * T);
}.
Arguments freed {T} c.
Arguments observed {T} c.

Definition no_client {T} : Client T := {| freed := []; observed := [] |}.

(** A code snippet built from the macros.  [alloc] tells whether the header
    in use defines [MKMOCK_HOOK_ALLOC] ([mkmock.hpp] does, [part_000] does
    not).  [Hook t x k] is [x] computed by the real call, then
    [MKMOCK_HOOK(t, x)], then [k] with what [x] now holds.  In
    [WithEnabledHook] the argument [MockedValue] is a value: an expression
    that has no effect and does not throw. *)
Inductive block (T : Type) (alloc : bool) : Type :=
| Done
| Throw (e : exn)
| Hook (t : tag) (variable : T) (k : T -> block T alloc)
| HookAlloc (defined : alloc = true) (t : tag) (variable : T)
    (k : T -> block T alloc)
| WithEnabledHook (t : tag) (MockedValue : T) (CodeSnippet : block T alloc)
    (k : block T alloc)
| TryCatch (body : block T alloc) (handler : exn -> block T alloc)
    (k : block T alloc).
Arguments Done {T alloc}.
Arguments Throw {T alloc} e.
Arguments Hook {T alloc} t variable k.
Arguments HookAlloc {T alloc} defined t variable k.
Arguments WithEnabledHook {T alloc} t MockedValue CodeSnippet k.
Arguments TryCatch {T alloc} body handler k.

(** [t] is activated somewhere in the snippet. *)
Fixpoint activates {T alloc} (t : tag) (p : block T alloc) : Prop :=
  match p with
  | Done | Throw _ => False
  | Hook _ _ k | HookAlloc _ _ _ k => exists v, activates t (k v)
  | WithEnabledHook t' _ body k =>
      t' = t \/ activates t body \/ activates t k
  | TryCatch body handler k =>
      activates t body \/ (exists e, activates t (handler e)) \/ activates t k
  end.

(** No [MKMOCK_WITH_ENABLED_HOOK] of a tag runs inside the snippet of
    another one of the same tag: one invocation per tag at a time. *)
Fixpoint one_at_a_time {T alloc} (p : block T alloc) : Prop :=
  match p with
  | Done | Throw _ => True
  | Hook _ _ k | HookAlloc _ _ _ k => forall v, one_at_a_time (k v)
  | WithEnabledHook t _ body k =>
      ~ activates t body /\ one_at_a_time body /\ one_at_a_time k
  | TryCatch body handler k =>
      one_at_a_time body /\ (forall e, one_at_a_time (handler e)) /\
      one_at_a_time k
  end.

Module BarrierClient.
Import Barrier.
Section Run.
Context {T : Type} `{ValueInit T} `{Nullable T}.

Abbreviation World := (Barrier.World T (Client T)).

(** The deleter of the model: it records its argument. *)
Definition release (p : T) : M World unit :=
  modify (fun w =>
    {| singleton := singleton w;
       rest := {| freed := freed (rest w) ++ [p];
                  observed := observed (rest w) |} |}).

Definition observe (t : tag) (v : T) : M World unit :=
  modify (fun w =>
    {| singleton := singleton w;
       rest := {| freed := freed (rest w);
                  observed := observed (rest w) ++ [(t, v)] |} |}).

(** The snippet, run by thread [me], with the macros of [mkmock.hpp] and
    [MKMOCK_HOOK_ENABLE] defined. *)
Fixpoint run {alloc} (p : block T alloc) (me : thread_id) : M World unit :=
  match p with
  | Done => ret tt
  | Throw e => throw e
  | Hook t x k =>
      v <- MKMOCK_HOOK true me t x ;; observe t v ;;; run (k v) me
  | HookAlloc _ t x k =>
      v <- MKMOCK_HOOK_ALLOC true me t x release ;;
      observe t v ;;; run (k v) me
  | WithEnabledHook t v body k =>
      MKMOCK_WITH_ENABLED_HOOK me t (ret v) (run body me) ;;; run k me
  | TryCatch body handler k =>
      try_catch_all (run body me) (fun e => run (handler e) me) ;;; run k me
  end.

(** The singletons are the same in both states. *)
Definition same_hooks (w w' : World) : Prop :=
  forall t, singleton w' t = singleton w t.

(** Snippets run one after the other, each by a thread of its own choice and
    each as far as it gets: to its end, to an exception that nothing
    catches, or to a mutex it has to wait for. *)
Fixpoint run_all {alloc} (schedule : list (thread_id * block T alloc))
    (w : World) : World :=
  match schedule with
  | [] => w
  | (me, p) :: later => run_all later (snd (run p me w))
  end.

End Run.
End BarrierClient.

Module FineGrainedClient.
Import FineGrained.
Section Run.
Context {T : Type} `{ValueInit T}.

Abbreviation World := (FineGrained.World T (Client T)).

Definition observe (t : tag) (v : T) : M World unit :=
  modify (fun w =>
    {| singleton := singleton w;
       rest := {| freed := freed (rest w);
                  observed := observed (rest w) ++ [(t, v)] |} |}).

(** The snippet, run by thread [me], with the macros of [part_000]; it
    defines no [MKMOCK_HOOK_ALLOC], so the snippet has none. *)
Fixpoint run (p : block T false) (me : thread_id) : M World unit :=
  match p with
  | Done => ret tt
  | Throw e => throw e
  | Hook t x k =>
      v <- MKMOCK_HOOK true me t x ;; observe t v ;;; run (k v) me
  | HookAlloc defined _ _ _ =>
      match Bool.diff_false_true defined with end
  | WithEnabledHook t v body k =>
      MKMOCK_WITH_ENABLED_HOOK me t (ret v) (run body me) ;;; run k me
  | TryCatch body handler k =>
      try_catch_all (run body me) (fun e => run (handler e) me) ;;; run k me
  end.

(** Snippets run one after the other, as [BarrierClient.run_all]. *)
Fixpoint run_all (schedule : list (thread_id * block T false))
    (w : World) : World :=
  match schedule with
  | [] => w
  | (me, p) :: later => run_all later (snd (run p me w))
  end.

End Run.
End FineGrainedClient.

(** ** The two headers side by side *)
Section Related.
Context {T : Type}.

(** The code ran to its end or threw: it neither waits for a mutex nor has
    undefined behaviour. *)
Definition completes {A} (r : result A) : Prop :=
  match r with
  | Normal _ | Raise _ => True
  | Blocked | Undefined => False
  end.



End Related.

(** ** A scenario *)


(** Activations of one tag, nested three deep; the outermost snippet throws
    [42] once the middle activation is over, so that the state in which
    the middle one ends is the state in which the whole ends. *)
Definition nested_scenario : block N false :=
  WithEnabledHook "api" 1%N
    (WithEnabledHook "api" 2%N
       (WithEnabledHook "api" 3%N Done Done)
       (Throw (foreign 42)))
    Done.

(** The snippet ended in a way that [MKMOCK_WITH_ENABLED_HOOK] takes to its
    last block: it fell off its end, or it threw what the handler catches. *)
Definition handled {A} (r : result A) : Prop :=
  match r with
  | Normal _ => True
  | Raise e => derives_from_std_exception e = true
  | Blocked | Undefined => False
  end.

(** * Facts *)

(** ** Sequencing *)

Lemma fst_bind {S A B} (c : M S A) (k : A -> M S B) (s : S) :
  fst (bind c k s) =
  match fst (c s) with
  | Normal a => fst (k a (snd (c s)))
  | Raise e => Raise e
  | Blocked => Blocked
  | Undefined => Undefined
  end.
Proof. unfold bind. by destruct (c s) as [[a|e| |] s1]. Qed.

Lemma snd_bind {S A B} (c : M S A) (k : A -> M S B) (s : S) :
  snd (bind c k s) =
  match fst (c s) with
  | Normal a => snd (k a (snd (c s)))
  | _ => snd (c s)
  end.
Proof. unfold bind. by destruct (c s) as [[a|e| |] s1]. Qed.

(** ** [src/mkmock.hpp]: the mutex, the hook, the scoped activation *)
Module BarrierFacts.
Import Barrier.
Section Facts.
Context {T R : Type} `{ValueInit T}.
Implicit Types (w : World T R) (t : tag) (me : thread_id) (i : mkmock T).

Lemma lookup_with_inst t f w t' :
  singleton (with_inst t f w) t' =
  if decide (t = t') then f (singleton w t) else singleton w t'.
Proof.
  unfold with_inst; simpl. destruct (decide (t = t')) as [->|Hne].
  - apply fn_lookup_insert.
  - by apply fn_lookup_insert_ne.
Qed.

Lemma lookup_with_inst_eq t f w :
  singleton (with_inst t f w) t = f (singleton w t).
Proof. by rewrite lookup_with_inst, decide_True. Qed.

Lemma lookup_with_inst_ne t f w t' :
  t <> t' -> singleton (with_inst t f w) t' = singleton w t'.
Proof. intros. by rewrite lookup_with_inst, decide_False. Qed.

Lemma rest_with_inst t f w : rest (with_inst t f w) = rest w.
Proof. done. Qed.



Lemma lock_unlock me m m' : lock me m = Some m' -> unlock me m' = Some m.
Proof.
  destruct m as [|o n]; simpl.
  - intros [= <-]. simpl. by rewrite decide_True.
  - destruct (decide (o = me)) as [->|]; [|done].
    intros [= <-]. simpl. by rewrite decide_True.
Qed.



(** Locking and unlocking around a scope that leaves the state alone. *)
Lemma unique_lock_pure {A} me t (a : A) w m :
  lock me (mutex (singleton w t)) = Some m ->
  exists w', unique_lock me t (ret a) w = (Normal a, w') /\ same w w'.
Proof.
  intros Hl. unfold unique_lock, bind, mutex_lock. rewrite Hl. simpl.
  unfold mutex_unlock. rewrite lookup_with_inst_eq. simpl.
  rewrite (lock_unlock _ _ _ Hl). eexists; split; [done|].
  split; [|done]. intros t'. rewrite !lookup_with_inst.
  case_decide; [subst|done]. rewrite decide_True by done.
  by destruct (singleton w t').
Qed.

Lemma hook_granted me t x w m :
  lock me (mutex (singleton w t)) = Some m ->
  exists w', MKMOCK_HOOK true me t x w =
    (Normal (if enabled (singleton w t) then value (singleton w t) else x), w')
    /\ same w w'.
Proof.
  intros Hl. destruct (unique_lock_pure me t
    (if enabled (singleton w t) then value (singleton w t) else x) w m Hl)
    as (w' & Hrun & Hsame).
  exists w'; split; [|done]. rewrite <- Hrun.
  unfold MKMOCK_HOOK, unique_lock, bind, mutex_lock. rewrite Hl.
  unfold gets. rewrite lookup_with_inst_eq. simpl.
  by destruct (enabled (singleton w t)).
Qed.

Lemma hook_waits me t x w :
  lock me (mutex (singleton w t)) = None ->
  MKMOCK_HOOK true me t x w = (Blocked, w).
Proof.
  intros Hl. unfold MKMOCK_HOOK, unique_lock, bind, mutex_lock. by rewrite Hl.
Qed.


Lemma mutex_lock_granted me t w m :
  lock me (mutex (singleton w t)) = Some m ->
  mutex_lock me t w = (Normal tt, with_inst t (set_mutex m) w).
Proof. intros Hl. unfold mutex_lock. by rewrite Hl. Qed.

Lemma entered_lookup me t v w m :
  lock me (mutex (singleton w t)) = Some m ->
  singleton (entered me t v w) t =
  {| enabled := true; value := v; saved_value := value (singleton w t);
     saved_exc := None; mutex := m |}.
Proof.
  intros Hl. unfold entered, bind. rewrite (mutex_lock_granted _ _ _ _ Hl).
  unfold activate, modify, bind. cbn. by rewrite !lookup_with_inst_eq.
Qed.

Lemma entered_lookup_ne me t v w t' :
  t <> t' -> singleton (entered me t v w) t' = singleton w t'.
Proof.
  intros Hne. unfold entered, bind, mutex_lock.
  destruct (lock me (mutex (singleton w t))); [|done].
  unfold activate, modify, bind. cbn. by rewrite !lookup_with_inst_ne.
Qed.


Lemma with_enabled_hook_waits me t (E : M (World T R) T) body w :
  lock me (mutex (singleton w t)) = None ->
  MKMOCK_WITH_ENABLED_HOOK me t E body w = (Blocked, w).
Proof.
  intros Hl. unfold MKMOCK_WITH_ENABLED_HOOK, bind, mutex_lock. by rewrite Hl.
Qed.

(** What [MKMOCK_WITH_ENABLED_HOOK] does, by the way its snippet ends. *)
Lemma with_enabled_hook_outcome me t v body w m r w2 :
  lock me (mutex (singleton w t)) = Some m ->
  body (entered me t v w) = (r, w2) ->
  MKMOCK_WITH_ENABLED_HOOK me t (ret v) body w =
  match r with
  | Normal _ => deactivate me t w2
  | Raise e =>
      if derives_from_std_exception e
      then deactivate me t (with_inst t (set_saved_exc (Some e)) w2)
      else (Raise e, w2)
  | Blocked => (Blocked, w2)
  | Undefined => (Undefined, w2)
  end.
Proof.
  intros Hl. unfold entered, MKMOCK_WITH_ENABLED_HOOK, bind.
  rewrite (mutex_lock_granted _ _ _ _ Hl). cbn. unfold guarded.
  intros ->. destruct r as [[]|e| |]; try done.
  by destruct (derives_from_std_exception e).
Qed.

Lemma deactivate_frame me t w t' :
  t <> t' -> singleton (snd (deactivate me t w)) t' = singleton w t'.
Proof.
  intros Hne. unfold deactivate, bind, mutex_unlock. cbn.
  match goal with |- context [unlock ?a ?b] => destruct (unlock a b) end;
    cbn.
  - match goal with |- context [saved_exc ?i] => destruct (saved_exc i) end;
      cbn; by rewrite !lookup_with_inst_ne.
  - by rewrite !lookup_with_inst_ne.
Qed.

Lemma deactivate_rest me t w : rest (snd (deactivate me t w)) = rest w.
Proof.
  unfold deactivate, bind, mutex_unlock. cbn.
  match goal with |- context [unlock ?a ?b] => destruct (unlock a b) end;
    cbn; [|done].
  by match goal with |- context [saved_exc ?i] => destruct (saved_exc i) end.
Qed.

Lemma deactivate_granted me t w m :
  unlock me (mutex (singleton w t)) = Some m ->
  fst (deactivate me t w) =
    match saved_exc (singleton w t) with
    | Some e => Raise e
    | None => Normal tt
    end /\
  singleton (snd (deactivate me t w)) t =
    {| enabled := false; value := saved_value (singleton w t);
       saved_value := value_init; saved_exc := None; mutex := m |}.
Proof.
  intros Hu. unfold deactivate, bind, mutex_unlock. cbn.
  rewrite !lookup_with_inst_eq. cbn. rewrite Hu.
  destruct (saved_exc (singleton w t)); cbn;
    by rewrite !lookup_with_inst_eq.
Qed.

Lemma deactivate_undefined me t w :
  unlock me (mutex (singleton w t)) = None ->
  fst (deactivate me t w) = Undefined /\
  singleton (snd (deactivate me t w)) t =
    {| enabled := false; value := saved_value (singleton w t);
       saved_value := value_init; saved_exc := None;
       mutex := mutex (singleton w t) |}.
Proof.
  intros Hu. unfold deactivate, bind, mutex_unlock. cbn.
  rewrite !lookup_with_inst_eq. cbn. rewrite Hu. cbn.
  by rewrite !lookup_with_inst_eq.
Qed.

(** When the snippet leaves the singleton of the tag as it found it, the hook
    is disabled and holds its old value when the macro returns or
    rethrows. *)
Lemma with_enabled_hook_restores me t v body w m r w2 :
  lock me (mutex (singleton w t)) = Some m ->
  body (entered me t v w) = (r, w2) ->
  singleton w2 t = singleton (entered me t v w) t ->
  match r with
  | Normal _ => True
  | Raise e => derives_from_std_exception e = true
  | _ => False
  end ->
  fst (MKMOCK_WITH_ENABLED_HOOK me t (ret v) body w) = r /\
  singleton (snd (MKMOCK_WITH_ENABLED_HOOK me t (ret v) body w)) t =
    {| enabled := false; value := value (singleton w t);
       saved_value := value_init; saved_exc := None;
       mutex := mutex (singleton w t) |} /\
  (forall t', t <> t' ->
     singleton (snd (MKMOCK_WITH_ENABLED_HOOK me t (ret v) body w)) t' =
     singleton w2 t') /\
  rest (snd (MKMOCK_WITH_ENABLED_HOOK me t (ret v) body w)) = rest w2.
Proof.
  intros Hl Hb Hsame Hr.
  rewrite (with_enabled_hook_outcome _ _ _ _ _ _ _ _ Hl Hb).
  rewrite (entered_lookup _ _ _ _ _ Hl) in Hsame.
  pose proof (lock_unlock _ _ _ Hl) as Hu.
  destruct r as [[]|e| |]; try done.
  - destruct (deactivate_granted me t w2 (mutex (singleton w t))) as [Hd Hs].
    { by rewrite Hsame. }
    split; [by rewrite Hd, Hsame|]. split; [by rewrite Hs, Hsame|].
    split; [intros t'; apply deactivate_frame | apply deactivate_rest].
  - rewrite Hr.
    destruct (deactivate_granted me t
      (with_inst t (set_saved_exc (Some e)) w2) (mutex (singleton w t)))
      as [Hd Hs].
    { by rewrite lookup_with_inst_eq, Hsame. }
    split; [by rewrite Hd, lookup_with_inst_eq, Hsame|].
    split; [by rewrite Hs, lookup_with_inst_eq, Hsame|]. split.
    + intros t' Hne. by rewrite deactivate_frame, lookup_with_inst_ne.
    + by rewrite deactivate_rest.
Qed.

Lemma deactivate_lookup me t w :
  singleton (snd (deactivate me t w)) t =
  {| enabled := false; value := saved_value (singleton w t);
     saved_value := value_init; saved_exc := None;
     mutex := default (mutex (singleton w t))
                (unlock me (mutex (singleton w t))) |}.
Proof.
  destruct (unlock me (mutex (singleton w t))) as [m|] eqn:Hu.
  - by destruct (deactivate_granted me t w m Hu) as [_ ->].
  - by destruct (deactivate_undefined me t w Hu) as [_ ->].
Qed.

(** The state that [MKMOCK_WITH_ENABLED_HOOK] leaves: the one it found when
    it has to wait; the one its snippet left when the snippet does not end
    or throws past the handler; otherwise the one that the last block makes
    of what the snippet left. *)
Lemma with_enabled_hook_cases me t v body w :
  let w' := snd (MKMOCK_WITH_ENABLED_HOOK me t (ret v) body w) in
  let w2 := snd (body (entered me t v w)) in
  (lock me (mutex (singleton w t)) = None /\ w' = w) \/
  (exists m, lock me (mutex (singleton w t)) = Some m /\
     (w' = w2 \/
      (singleton w' t =
         {| enabled := false; value := saved_value (singleton w2 t);
            saved_value := value_init; saved_exc := None;
            mutex := default (mutex (singleton w2 t))
                       (unlock me (mutex (singleton w2 t))) |} /\
       forall t', t <> t' -> singleton w' t' = singleton w2 t'))).
Proof.
  intros w' w2. subst w' w2.
  destruct (lock me (mutex (singleton w t))) as [m|] eqn:Hl.
  - right. exists m. split; [done|].
    destruct (body (entered me t v w)) as [r w2] eqn:Hb.
    rewrite (with_enabled_hook_outcome _ _ _ _ _ _ _ _ Hl Hb). cbn [snd].
    destruct r as [[]|e| |]; [|destruct (derives_from_std_exception e)| |];
      try (by left); right.
    + split; [apply deactivate_lookup|]. intros t'. apply deactivate_frame.
    + split.
      * by rewrite deactivate_lookup, lookup_with_inst_eq.
      * intros t' Hne. by rewrite deactivate_frame, lookup_with_inst_ne.
  - left. split; [done|]. by rewrite with_enabled_hook_waits.
Qed.

(** The mutex that [lock] hands to a thread is one that the thread owns. *)
Lemma lock_owned me m m' :
  lock me m = Some m' -> exists k, m' = Locked me k.
Proof.
  destruct m as [|o n]; cbn.
  - intros [= <-]. by eexists.
  - destruct (decide (o = me)); [|done]. intros [= <-]. by eexists.
Qed.

End Facts.
End BarrierFacts.

(** ** [src/unnamed/part_000]: the mutex, the hook, the scoped activation *)
Module FineGrainedFacts.
Import FineGrained.
Section Facts.
Context {T R : Type} `{ValueInit T}.
Implicit Types (w : World T R) (t : tag) (me : thread_id) (i : mkmock T).

Lemma fine_lookup_with_inst t f w t' :
  singleton (with_inst t f w) t' =
  if decide (t = t') then f (singleton w t) else singleton w t'.
Proof.
  unfold with_inst; simpl. destruct (decide (t = t')) as [->|Hne].
  - apply fn_lookup_insert.
  - by apply fn_lookup_insert_ne.
Qed.

Lemma fine_lookup_with_inst_eq t f w :
  singleton (with_inst t f w) t = f (singleton w t).
Proof. by rewrite fine_lookup_with_inst, decide_True. Qed.

Lemma fine_lookup_with_inst_ne t f w t' :
  t <> t' -> singleton (with_inst t f w) t' = singleton w t'.
Proof. intros. by rewrite fine_lookup_with_inst, decide_False. Qed.

Lemma fine_mutex_lock_free me t w :
  mutex (singleton w t) = Free ->
  mutex_lock me t w = (Normal tt, with_inst t (set_mutex (Held me)) w).
Proof. intros Hm. unfold mutex_lock. by rewrite Hm. Qed.

(** A scope that cannot fail and leaves the mutex alone, run under the
    lock. *)
Lemma fine_unique_lock_free {A} me t (scope : M (World T R) A) a w w1 :
  mutex (singleton w t) = Free ->
  scope (with_inst t (set_mutex (Held me)) w) = (Normal a, w1) ->
  mutex (singleton w1 t) = Held me ->
  unique_lock me t scope w = (Normal a, with_inst t (set_mutex Free) w1).
Proof.
  intros Hm Hs Hm1. unfold unique_lock, bind.
  rewrite (fine_mutex_lock_free _ _ _ Hm), Hs. unfold mutex_unlock.
  rewrite Hm1. by rewrite decide_True.
Qed.

Lemma fine_hook_free me t x w :
  mutex (singleton w t) = Free ->
  exists w', MKMOCK_HOOK true me t x w =
    (Normal (if enabled (singleton w t) then value (singleton w t) else x), w')
    /\ same w w'.
Proof.
  intros Hm. unfold MKMOCK_HOOK. eexists; split.
  - eapply fine_unique_lock_free; [done| |].
    + unfold bind, gets. rewrite fine_lookup_with_inst_eq. cbn.
      by destruct (enabled (singleton w t)).
    + by rewrite fine_lookup_with_inst_eq.
  - split; [|done]. intros t'. rewrite !fine_lookup_with_inst.
    case_decide; [subst|done]. rewrite decide_True by done.
    destruct (singleton w t') eqn:E. cbn in *. by subst.
Qed.

Lemma fine_hook_waits me t x w owner :
  mutex (singleton w t) = Held owner -> owner <> me ->
  MKMOCK_HOOK true me t x w = (Blocked, w).
Proof.
  intros Hm Hne. unfold MKMOCK_HOOK, unique_lock, bind, mutex_lock.
  rewrite Hm. by rewrite decide_False.
Qed.

Lemma fine_hook_relock me t x w :
  mutex (singleton w t) = Held me ->
  MKMOCK_HOOK true me t x w = (Undefined, w).
Proof.
  intros Hm. unfold MKMOCK_HOOK, unique_lock, bind, mutex_lock.
  rewrite Hm. by rewrite decide_True.
Qed.

Lemma fine_activate_free me t v w :
  mutex (singleton w t) = Free ->
  fst (activate me t (ret v) w) = Normal (value (singleton w t)) /\
  singleton (entered me t v w) t =
    {| enabled := true; value := v; mutex := Free |}.
Proof.
  intros Hm. unfold entered, activate.
  erewrite fine_unique_lock_free; [| done | by unfold bind, gets, modify; cbn |].
  - split; [by rewrite fine_lookup_with_inst_eq|].
    cbn. by rewrite !fine_lookup_with_inst_eq.
  - by rewrite !fine_lookup_with_inst_eq.
Qed.

Lemma fine_entered_lookup_ne me t v w t' :
  t <> t' -> singleton (entered me t v w) t' = singleton w t'.
Proof.
  intros Hne. unfold entered, activate, unique_lock, bind, mutex_lock.
  destruct (mutex (singleton w t)) as [|o]; cbn.
  - unfold mutex_unlock. rewrite !fine_lookup_with_inst_eq. cbn.
    rewrite decide_True by done. cbn. by rewrite !fine_lookup_with_inst_ne.
  - by destruct (decide (o = me)).
Qed.


Lemma fine_deactivate_free me t sv w :
  mutex (singleton w t) = Free ->
  fst (deactivate me t sv w) = Normal tt /\
  singleton (snd (deactivate me t sv w)) t =
    {| enabled := false; value := sv; mutex := Free |}.
Proof.
  intros Hm. unfold deactivate.
  erewrite fine_unique_lock_free; [| done | by unfold bind, modify; cbn |].
  - split; [done|]. cbn. by rewrite !fine_lookup_with_inst_eq.
  - by rewrite !fine_lookup_with_inst_eq.
Qed.

Lemma fine_deactivate_frame me t sv w t' :
  t <> t' -> singleton (snd (deactivate me t sv w)) t' = singleton w t'.
Proof.
  intros Hne. unfold deactivate, unique_lock, bind, mutex_lock.
  destruct (mutex (singleton w t)) as [|o]; cbn.
  - unfold mutex_unlock. rewrite !fine_lookup_with_inst_eq. cbn.
    rewrite decide_True by done. cbn. by rewrite !fine_lookup_with_inst_ne.
  - by destruct (decide (o = me)).
Qed.

Lemma fine_deactivate_rest me t sv w : rest (snd (deactivate me t sv w)) = rest w.
Proof.
  unfold deactivate, unique_lock, bind, mutex_lock.
  destruct (mutex (singleton w t)) as [|o]; cbn.
  - unfold mutex_unlock. rewrite !fine_lookup_with_inst_eq. cbn.
    by rewrite decide_True by done.
  - by destruct (decide (o = me)).
Qed.

Lemma fine_with_enabled_hook_waits me t (E : M (World T R) T) body w owner :
  mutex (singleton w t) = Held owner -> owner <> me ->
  MKMOCK_WITH_ENABLED_HOOK me t E body w = (Blocked, w).
Proof.
  intros Hm Hne.
  unfold MKMOCK_WITH_ENABLED_HOOK, activate, unique_lock, bind, mutex_lock.
  rewrite Hm. by rewrite decide_False.
Qed.

(** What [MKMOCK_WITH_ENABLED_HOOK] does, by the way its snippet ends. *)
Lemma fine_with_enabled_hook_outcome me t v body w r w2 :
  mutex (singleton w t) = Free ->
  body (entered me t v w) = (r, w2) ->
  MKMOCK_WITH_ENABLED_HOOK me t (ret v) body w =
  match r with
  | Normal _ => (deactivate me t (value (singleton w t)) ;;; ret tt) w2
  | Raise e =>
      if derives_from_std_exception e
      then (deactivate me t (value (singleton w t)) ;;; throw e) w2
      else (Raise e, w2)
  | Blocked => (Blocked, w2)
  | Undefined => (Undefined, w2)
  end.
Proof.
  intros Hm. unfold entered. destruct (fine_activate_free me t v w Hm) as [Hr _].
  unfold MKMOCK_WITH_ENABLED_HOOK, bind at 1.
  destruct (activate me t (ret v) w) as [r1 w1]. cbn in Hr |- *. subst r1.
  intros Hb. unfold bind at 1, guarded. rewrite Hb.
  destruct r as [[]|e| |]; try done.
  by destruct (derives_from_std_exception e).
Qed.

(** The saved value is a local of the expansion: whatever the snippet does to
    the singleton, the hook is disabled and holds its old value when the
    macro returns or rethrows. *)
Lemma fine_with_enabled_hook_restores me t v body w r w2 :
  mutex (singleton w t) = Free ->
  body (entered me t v w) = (r, w2) ->
  mutex (singleton w2 t) = Free ->
  match r with
  | Normal _ => True
  | Raise e => derives_from_std_exception e = true
  | _ => False
  end ->
  fst (MKMOCK_WITH_ENABLED_HOOK me t (ret v) body w) = r /\
  singleton (snd (MKMOCK_WITH_ENABLED_HOOK me t (ret v) body w)) t =
    {| enabled := false; value := value (singleton w t); mutex := Free |} /\
  (forall t', t <> t' ->
     singleton (snd (MKMOCK_WITH_ENABLED_HOOK me t (ret v) body w)) t' =
     singleton w2 t') /\
  rest (snd (MKMOCK_WITH_ENABLED_HOOK me t (ret v) body w)) = rest w2.
Proof.
  intros Hm Hb Hm2 Hr.
  rewrite (fine_with_enabled_hook_outcome _ _ _ _ _ _ _ Hm Hb).
  destruct (fine_deactivate_free me t (value (singleton w t)) w2 Hm2)
    as [Hd Hs].
  pose proof (fine_deactivate_frame me t (value (singleton w t)) w2) as Hf.
  pose proof (fine_deactivate_rest me t (value (singleton w t)) w2) as Hrest.
  destruct r as [[]|e| |]; try done.
  - unfold bind. destruct (deactivate _ _ _ w2) as [r3 w3].
    cbn in Hd, Hs, Hf, Hrest |- *. by subst r3.
  - rewrite Hr. unfold bind. destruct (deactivate _ _ _ w2) as [r3 w3].
    cbn in Hd, Hs, Hf, Hrest |- *. by subst r3.
Qed.

Lemma fine_hook_same_hooks me t x w t' :
  singleton (snd (MKMOCK_HOOK true me t x w)) t' = singleton w t'.
Proof.
  destruct (mutex (singleton w t)) as [|owner] eqn:Hm.
  - destruct (fine_hook_free me t x w Hm) as (w' & -> & Hs & _).
    by rewrite Hs.
  - destruct (decide (owner = me)) as [->|Hne].
    + by rewrite fine_hook_relock.
    + by erewrite fine_hook_waits.
Qed.

Lemma fine_hook_rest me t x w : rest (snd (MKMOCK_HOOK true me t x w)) = rest w.
Proof.
  destruct (mutex (singleton w t)) as [|owner] eqn:Hm.
  - by destruct (fine_hook_free me t x w Hm) as (w' & -> & _ & ->).
  - destruct (decide (owner = me)) as [->|Hne].
    + by rewrite fine_hook_relock.
    + by erewrite fine_hook_waits.
Qed.

(** A thread that cannot take the mutex does not get into the macro. *)
Lemma fine_with_enabled_hook_stuck me t v body w :
  mutex (singleton w t) <> Free ->
  snd (MKMOCK_WITH_ENABLED_HOOK me t (ret v) body w) = w /\
  ~ completes (fst (MKMOCK_WITH_ENABLED_HOOK me t (ret v) body w)).
Proof.
  intros Hm.
  unfold MKMOCK_WITH_ENABLED_HOOK, activate, unique_lock, bind, mutex_lock.
  destruct (mutex (singleton w t)) as [|owner]; [done|].
  destruct (decide (owner = me)); cbn; (split; [done|tauto]).
Qed.

Lemma fine_deactivate_stuck me t sv w :
  mutex (singleton w t) <> Free -> snd (deactivate me t sv w) = w.
Proof.
  intros Hm. unfold deactivate, unique_lock, bind, mutex_lock.
  destruct (mutex (singleton w t)) as [|owner]; [done|].
  by destruct (decide (owner = me)).
Qed.

(** The state that [MKMOCK_WITH_ENABLED_HOOK] leaves: the one it found when
    it cannot take the mutex; the one its snippet left when the snippet does
    not end or throws past the handler; otherwise the one that the last
    block makes of what the snippet left. *)
Lemma fine_with_enabled_hook_cases me t v body w :
  let w' := snd (MKMOCK_WITH_ENABLED_HOOK me t (ret v) body w) in
  let w2 := snd (body (entered me t v w)) in
  (mutex (singleton w t) <> Free /\ w' = w) \/
  (mutex (singleton w t) = Free /\
   (w' = w2 \/ w' = snd (deactivate me t (value (singleton w t)) w2))).
Proof.
  intros w' w2. subst w' w2.
  destruct (mutex (singleton w t)) as [|owner] eqn:Hm.
  - right. split; [done|].
    destruct (body (entered me t v w)) as [r w2] eqn:Hb.
    rewrite (fine_with_enabled_hook_outcome _ _ _ _ _ _ _ Hm Hb).
    cbn [snd].
    destruct r as [[]|e| |]; [|destruct (derives_from_std_exception e)| |];
      try (by left); right; rewrite snd_bind;
      by destruct (fst (deactivate me t (value (singleton w t)) w2)).
  - left. split; [done|].
    apply fine_with_enabled_hook_stuck. by rewrite Hm.
Qed.

End Facts.
End FineGrainedFacts.

(** ** Snippets run with [src/mkmock.hpp] *)
Module BarrierClientFacts.
Import Barrier BarrierFacts BarrierClient.
Section Facts.
Context {T : Type} `{ValueInit T} `{Nullable T}.
Abbreviation World := (Barrier.World T (Client T)).
Implicit Types (w : World) (t : tag) (me : thread_id).



Lemma hook_same_hooks me t x w :
  same_hooks w (snd (MKMOCK_HOOK true me t x w)).
Proof.
  destruct (lock me (mutex (singleton w t))) as [m|] eqn:Hl.
  - destruct (hook_granted me t x w m Hl) as (w' & -> & Hs & _).
    intros t'. by rewrite Hs.
  - by rewrite hook_waits.
Qed.


(** [MKMOCK_HOOK_ALLOC] with the recording deleter, when the lock is
    granted. *)
Lemma hook_alloc_granted me t x w m :
  lock me (mutex (singleton w t)) = Some m ->
  exists w', MKMOCK_HOOK_ALLOC true me t x release w =
    (Normal (if enabled (singleton w t) then value (singleton w t) else x), w')
    /\ same_hooks w w'
    /\ freed (rest w') =
         freed (rest w) ++
         (if enabled (singleton w t) && negb (is_nullptr x) then [x] else [])
    /\ observed (rest w') = observed (rest w).
Proof.
  intros Hl. pose proof (lock_unlock _ _ _ Hl) as Hu.
  assert (forall i : mkmock T, set_mutex (mutex i) (set_mutex m i) = i)
    as Hid by (by intros []).
  unfold MKMOCK_HOOK_ALLOC, unique_lock, bind at 1.
  rewrite (mutex_lock_granted _ _ _ _ Hl).
  unfold bind, gets, ret, mutex_unlock, release, modify. cbn.
  rewrite !lookup_with_inst_eq. cbn.
  destruct (enabled (singleton w t)), (is_nullptr x); cbn;
    rewrite ?lookup_with_inst_eq; cbn; rewrite Hu; cbn;
    (eexists; split; [done|]); (split; [|split]); cbn;
    try done; try (by rewrite app_nil_r);
    intros t'; rewrite lookup_with_inst; cbn; case_decide; subst; try done;
    rewrite ?lookup_with_inst_eq, ?Hid; try done;
    by rewrite lookup_with_inst_ne.
Qed.

Lemma hook_alloc_waits me t x (D : T -> M World unit) w :
  lock me (mutex (singleton w t)) = None ->
  MKMOCK_HOOK_ALLOC true me t x D w = (Blocked, w).
Proof.
  intros Hl. unfold MKMOCK_HOOK_ALLOC, unique_lock, bind, mutex_lock.
  by rewrite Hl.
Qed.

Lemma hook_alloc_same_hooks me t x w :
  same_hooks w (snd (MKMOCK_HOOK_ALLOC true me t x release w)).
Proof.
  destruct (lock me (mutex (singleton w t))) as [m|] eqn:Hl.
  - by destruct (hook_alloc_granted me t x w m Hl) as (w' & -> & Hs & _).
  - by rewrite hook_alloc_waits.
Qed.

(** The deleter does not matter when the hook is disabled or the variable
    is null. *)
Lemma hook_alloc_no_call me t x (D D' : T -> M World unit) w :
  enabled (singleton w t) && negb (is_nullptr x) = false ->
  MKMOCK_HOOK_ALLOC true me t x D w = MKMOCK_HOOK_ALLOC true me t x D' w.
Proof.
  intros Hnot. unfold MKMOCK_HOOK_ALLOC, unique_lock, bind, mutex_lock.
  destruct (lock me (mutex (singleton w t))) as [m|]; [|done].
  unfold gets. rewrite lookup_with_inst_eq. cbn.
  destruct (enabled (singleton w t)); [|done].
  destruct (is_nullptr x); [done|discriminate Hnot].
Qed.

Lemma observe_same_hooks t (v : T) w : same_hooks w (snd (observe t v w)).
Proof. done. Qed.

(** A relation between the state before and the state after holds of every
    run of a snippet once it holds of the steps: it is a preorder, it sees
    the singletons only, and it is carried from the snippet of a scoped
    activation to the activation. *)
Lemma run_related (Q : World -> World -> Prop) (ok : tag -> Prop) me :
  (forall w, Q w w) ->
  (forall w1 w2 w3, Q w1 w2 -> Q w2 w3 -> Q w1 w3) ->
  (forall w w', same_hooks w w' -> Q w w') ->
  (forall t v (body : M World unit) w,
      ok t ->
      Q (entered me t v w) (snd (body (entered me t v w))) ->
      Q w (snd (MKMOCK_WITH_ENABLED_HOOK me t (ret v) body w))) ->
  forall alloc (p : block T alloc),
    (forall t, activates t p -> ok t) ->
    forall w, Q w (snd (run p me w)).
Proof.
  intros Qrefl Qtrans Qsame Qwith alloc p.
  induction p as [|e|t x k IH|d t x k IH|t v body IHb k IHk
                  |body IHb handler IHh k IHk]; intros Hok w; cbn [run].
  - apply Qrefl.
  - apply Qrefl.
  - rewrite snd_bind.
    pose proof (hook_same_hooks me t x w) as Hs.
    destruct (MKMOCK_HOOK true me t x w) as [[a|e| |] w1]; cbn in *;
      try (by apply Qsame).
    eapply Qtrans; [by apply Qsame|].
    eapply Qtrans; [apply Qsame, (observe_same_hooks t a w1)|].
    apply IH. intros t' Ht'. apply Hok. cbn. by exists a.
  - rewrite snd_bind.
    pose proof (hook_alloc_same_hooks me t x w) as Hs.
    destruct (MKMOCK_HOOK_ALLOC true me t x release w) as [[a|e| |] w1];
      cbn in *; try (by apply Qsame).
    eapply Qtrans; [by apply Qsame|].
    eapply Qtrans; [apply Qsame, (observe_same_hooks t a w1)|].
    apply IH. intros t' Ht'. apply Hok. cbn. by exists a.
  - rewrite snd_bind.
    assert (Q w (snd (MKMOCK_WITH_ENABLED_HOOK me t (ret v) (run body me) w)))
      as Hw.
    { apply Qwith; [apply Hok; cbn; by left|].
      apply IHb. intros t' Ht'. apply Hok. cbn. tauto. }
    destruct (MKMOCK_WITH_ENABLED_HOOK me t (ret v) (run body me) w)
      as [[a|e| |] w1]; cbn in *; try done.
    eapply Qtrans; [done|]. apply IHk. intros t' Ht'. apply Hok. cbn. tauto.
  - rewrite snd_bind.
    assert (Q w (snd (try_catch_all (run body me)
                        (fun e => run (handler e) me) w))) as Hw.
    { unfold try_catch_all.
      assert (Q w (snd (run body me w))) as Hb.
      { apply IHb. intros t' Ht'. apply Hok. cbn. tauto. }
      destruct (run body me w) as [[a|e| |] w1]; cbn in *; try done.
      eapply Qtrans; [done|]. apply IHh. intros t' Ht'. apply Hok. cbn.
      right; left. by exists e. }
    destruct (try_catch_all _ _ w) as [[a|e| |] w1]; cbn in *; try done.
    eapply Qtrans; [done|]. apply IHk. intros t' Ht'. apply Hok. cbn. tauto.
Qed.

(** A snippet does not touch the singleton of a tag that it does not
    activate. *)
Lemma run_untouched {alloc} (p : block T alloc) me t0 w :
  ~ activates t0 p -> singleton (snd (run p me w)) t0 = singleton w t0.
Proof.
  intros Hna.
  apply (run_related (fun w w' => singleton w' t0 = singleton w t0)
           (fun t => t <> t0) me); try done.
  - intros w1 w2 w3 H12 H23. by rewrite H23.
  - clear w. intros t v body w Hne Hbody.
    rewrite entered_lookup_ne in Hbody by done.
    destruct (with_enabled_hook_cases me t v body w)
      as [[_ ->]|(m & _ & [->|[_ Hf]])]; try done.
    by rewrite Hf.
  - intros t Ht ->. done.
Qed.

(** Every run of a snippet keeps [enabled] and [saved_value] paired. *)
Lemma run_paired {alloc} (p : block T alloc) me w :
  (forall t, paired (singleton w t)) ->
  forall t, paired (singleton (snd (run p me w)) t).
Proof.
  apply (run_related
           (fun w w' => (forall t, paired (singleton w t)) ->
                        forall t, paired (singleton w' t))
           (fun _ => True) me); try done.
  - intros w1 w2 w3 H12 H23 H1. by apply H23, H12.
  - intros w1 w2 Hs H1 t. by rewrite Hs.
  - clear w. intros t v body w _ Hbody Hw.
    assert (forall t', paired (singleton (entered me t v w) t')) as He.
    { intros t'. destruct (decide (t = t')) as [<-|Hne].
      - destruct (lock me (mutex (singleton w t))) as [m|] eqn:Hl.
        + by rewrite (entered_lookup _ _ _ _ _ Hl).
        + unfold entered, bind, mutex_lock. rewrite Hl. apply Hw.
      - rewrite entered_lookup_ne by done. apply Hw. }
    specialize (Hbody He).
    destruct (with_enabled_hook_cases me t v body w)
      as [[_ ->]|(m & _ & [->|[Ht Hf]])]; try done.
    intros t'. destruct (decide (t = t')) as [<-|Hne].
    + by rewrite Ht.
    + rewrite Hf by done. apply Hbody.
Qed.

(** No run of a snippet, by whatever thread, takes the mutex from the thread
    that owns it, or brings it under the count it had. *)
Lemma run_held {alloc} (p : block T alloc) me owner t0 n w :
  held owner n (singleton w t0) ->
  held owner n (singleton (snd (run p me w)) t0).
Proof.
  revert n.
  apply (run_related
           (fun w w' => forall n, held owner n (singleton w t0) ->
                                  held owner n (singleton w' t0))
           (fun _ => True) me); try done.
  - intros w1 w2 w3 H12 H23 n H1. by apply H23, H12.
  - intros w1 w2 Hs n H1. by rewrite Hs.
  - clear w. intros t v body w _ Hbody n (k & Hk & Hnk).
    destruct (decide (t = t0)) as [->|Hne].
    + destruct (with_enabled_hook_cases me t0 v body w)
        as [[_ ->]|(m & Hl & Hcases)]; [by exists k|].
      rewrite Hk in Hl. cbn in Hl.
      destruct (decide (owner = me)) as [<-|]; [|done].
      injection Hl as <-.
      destruct (Hbody (S k)) as (k2 & Hk2 & Hle).
      { exists (S k). split; [|done].
        erewrite entered_lookup; [done|]. rewrite Hk. cbn.
        by rewrite decide_True. }
      destruct Hcases as [->|[-> _]].
      * exists k2. split; [done|lia].
      * rewrite Hk2. cbn. rewrite decide_True by done.
        destruct k2 as [|k2']; [lia|]. exists k2'. cbn. split; [done|lia].
    + assert (held owner n (singleton (entered me t v w) t0)) as He.
      { rewrite entered_lookup_ne by done. by exists k. }
      specialize (Hbody n He).
      destruct (with_enabled_hook_cases me t v body w)
        as [[_ ->]|(m & _ & [->|[_ Hf]])]; try done.
      * by exists k.
      * by rewrite Hf.
Qed.

Lemma run_all_paired {alloc} (schedule : list (thread_id * block T alloc)) w :
  (forall t, paired (singleton w t)) ->
  forall t, paired (singleton (run_all schedule w) t).
Proof.
  revert w. induction schedule as [|[me p] later IH]; intros w Hw; [done|].
  cbn [run_all]. apply IH. by apply run_paired.
Qed.

Lemma run_all_held {alloc} (schedule : list (thread_id * block T alloc))
    owner t n w :
  held owner n (singleton w t) ->
  held owner n (singleton (run_all schedule w) t).
Proof.
  revert w. induction schedule as [|[me p] later IH]; intros w Hw; [done|].
  cbn [run_all]. apply IH. by apply run_held.
Qed.

(** A thread that does not own the mutex waits, whatever macro it is in. *)
Lemma held_waits owner n other (i : mkmock T) :
  held owner n i -> other <> owner -> lock other (mutex i) = None.
Proof.
  intros (k & -> & _) Hne. cbn. by rewrite decide_False.
Qed.

Lemma run_all_untouched {alloc} (schedule : list (thread_id * block T alloc))
    t0 w :
  Forall (fun s => ~ activates t0 (snd s)) schedule ->
  singleton (run_all schedule w) t0 = singleton w t0.
Proof.
  revert w. induction schedule as [|[me p] later IH]; intros w Hs; [done|].
  cbn [run_all]. rewrite IH by (by eapply Forall_inv_tail).
  apply run_untouched. by apply Forall_inv in Hs.
Qed.

(** No run of a snippet leaves an exception in [saved_exc]. *)
Lemma run_saved_exc {alloc} (p : block T alloc) me t0 w :
  saved_exc (singleton w t0) = None ->
  saved_exc (singleton (snd (run p me w)) t0) = None.
Proof.
  apply (run_related
           (fun w w' => saved_exc (singleton w t0) = None ->
                        saved_exc (singleton w' t0) = None)
           (fun _ => True) me); try done.
  - intros w1 w2 w3 H12 H23 H1. by apply H23, H12.
  - intros w1 w2 Hs H1. by rewrite Hs.
  - clear w. intros t v body w _ Hbody Hw.
    destruct (with_enabled_hook_cases me t v body w)
      as [[_ ->]|(m & Hl & Hcases)]; [done|].
    assert (saved_exc (singleton (snd (body (entered me t v w))) t0) = None)
      as H2.
    { apply Hbody. destruct (decide (t = t0)) as [<-|Hne].
      - by rewrite (entered_lookup _ _ _ _ _ Hl).
      - by rewrite entered_lookup_ne. }
    destruct Hcases as [->|[Ht Hf]]; [done|].
    destruct (decide (t = t0)) as [<-|Hne].
    + by rewrite Ht.
    + by rewrite Hf.
Qed.

(** A run by a thread that could lock every mutex leaves every mutex such
    that the thread can lock it. *)
Lemma run_lockable {alloc} (p : block T alloc) me w :
  (forall t, lock me (mutex (singleton w t)) <> None) ->
  forall t, lock me (mutex (singleton (snd (run p me w)) t)) <> None.
Proof.
  apply (run_related
           (fun w w' =>
              (forall t, lock me (mutex (singleton w t)) <> None) ->
              forall t, lock me (mutex (singleton w' t)) <> None)
           (fun _ => True) me); try done.
  - intros w1 w2 w3 H12 H23 H1. by apply H23, H12.
  - intros w1 w2 Hs H1 t. by rewrite Hs.
  - clear w. intros t v body w _ Hbody Hw.
    destruct (with_enabled_hook_cases me t v body w)
      as [[_ ->]|(m & Hl & Hcases)]; [done|].
    assert (forall t', lock me (mutex (singleton (entered me t v w) t'))
                       <> None) as He.
    { intros t'. destruct (decide (t = t')) as [<-|Hne].
      - rewrite (entered_lookup _ _ _ _ _ Hl). cbn.
        destruct (lock_owned _ _ _ Hl) as [k ->]. cbn.
        by rewrite decide_True.
      - rewrite entered_lookup_ne by done. apply Hw. }
    specialize (Hbody He).
    destruct Hcases as [->|[Ht Hf]]; [done|].
    intros t'. destruct (decide (t = t')) as [<-|Hne].
    + rewrite Ht. cbn. specialize (Hbody t).
      destruct (mutex (singleton (snd (body (entered me t v w))) t))
        as [|o n]; cbn in *; [done|].
      destruct (decide (o = me)) as [->|]; [|done].
      destruct n; cbn; [done|]. by rewrite decide_True.
    + rewrite Hf by done. apply Hbody.
Qed.

(** [MKMOCK_WITH_ENABLED_HOOK] ends the way its snippet ends: it returns
    when the snippet falls off its end and throws what the snippet threw. *)
Lemma with_enabled_hook_transparent {alloc} (p : block T alloc) me t v w :
  lock me (mutex (singleton w t)) <> None ->
  fst (MKMOCK_WITH_ENABLED_HOOK me t (ret v) (run p me) w) =
  fst (run p me (entered me t v w)).
Proof.
  intros Hl. destruct (lock me (mutex (singleton w t))) as [m|] eqn:Hlock;
    [|done].
  destruct (lock_owned _ _ _ Hlock) as [k ->].
  pose proof (entered_lookup _ _ v _ _ Hlock) as He.
  assert (held me k (singleton (snd (run p me (entered me t v w))) t))
    as (k2 & Hk2 & _).
  { apply run_held. rewrite He. by exists k. }
  assert (saved_exc (singleton (snd (run p me (entered me t v w))) t) = None)
    as Hexc.
  { apply run_saved_exc. by rewrite He. }
  destruct (run p me (entered me t v w)) as [r w2] eqn:Hrun.
  rewrite (with_enabled_hook_outcome _ _ _ _ _ _ _ _ Hlock Hrun).
  cbn [fst snd] in *.
  destruct r as [[]|e| |]; try done.
  - destruct (deactivate_granted me t w2
                (match k2 with O => Unlocked | S n => Locked me n end))
      as [-> _]; [|by rewrite Hexc].
    rewrite Hk2. cbn. by rewrite decide_True.
  - destruct (derives_from_std_exception e); [|done].
    destruct (deactivate_granted me t
                (with_inst t (set_saved_exc (Some e)) w2)
                (match k2 with O => Unlocked | S n => Locked me n end))
      as [-> _]; [|by rewrite lookup_with_inst_eq].
    rewrite lookup_with_inst_eq. cbn. rewrite Hk2. cbn.
    by rewrite decide_True.
Qed.

Lemma snd_run_with_done {alloc} (body : block T alloc) me t v w :
  snd (run (WithEnabledHook t v body Done) me w) =
  snd (MKMOCK_WITH_ENABLED_HOOK me t (ret v) (run body me) w).
Proof.
  cbn [run]. rewrite snd_bind.
  by destruct (fst (MKMOCK_WITH_ENABLED_HOOK me t (ret v) (run body me) w)).
Qed.

(** One thread alone is never kept waiting and never unlocks what it does
    not own, however its activations nest. *)
Lemma run_completes {alloc} (p : block T alloc) me w :
  (forall t, lock me (mutex (singleton w t)) <> None) ->
  completes (fst (run p me w)).
Proof.
  revert w.
  induction p as [|e|t x k IH|d t x k IH|t v body IHb k IHk
                  |body IHb handler IHh k IHk]; intros w Hw; cbn [run].
  - done.
  - done.
  - destruct (lock me (mutex (singleton w t))) as [m|] eqn:Hl;
      [|by destruct (Hw t)].
    destruct (hook_granted me t x w m Hl) as (w' & Hrun & Hs & _).
    rewrite fst_bind, Hrun. cbn [fst snd]. rewrite fst_bind. cbn [fst snd
      observe modify]. apply IH. intros t'. cbn. by rewrite <- Hs.
  - destruct (lock me (mutex (singleton w t))) as [m|] eqn:Hl;
      [|by destruct (Hw t)].
    destruct (hook_alloc_granted me t x w m Hl) as (w' & Hrun & Hs & _).
    rewrite fst_bind, Hrun. cbn [fst snd]. rewrite fst_bind. cbn [fst snd
      observe modify]. apply IH. intros t'. cbn. by rewrite Hs.
  - rewrite fst_bind, (with_enabled_hook_transparent body me t v w (Hw t)).
    assert (forall t', lock me (mutex (singleton (entered me t v w) t'))
                       <> None) as He.
    { destruct (lock me (mutex (singleton w t))) as [m|] eqn:Hl;
        [|by destruct (Hw t)].
      intros t'. destruct (decide (t = t')) as [<-|Hne].
      - rewrite (entered_lookup _ _ _ _ _ Hl). cbn.
        destruct (lock_owned _ _ _ Hl) as [n ->]. cbn.
        by rewrite decide_True.
      - rewrite entered_lookup_ne by done. apply Hw. }
    pose proof (IHb _ He) as Hc.
    destruct (fst (run body me (entered me t v w))) as [[]|e| |]; try done.
    apply IHk. rewrite <- snd_run_with_done. by apply run_lockable.
  - rewrite fst_bind.
    assert (completes (fst (try_catch_all (run body me)
                              (fun e => run (handler e) me) w)) /\
            forall t, lock me (mutex (singleton
              (snd (try_catch_all (run body me)
                      (fun e => run (handler e) me) w)) t)) <> None)
      as [Hc Hlock].
    { unfold try_catch_all. pose proof (IHb w Hw) as Hb.
      pose proof (run_lockable body me w Hw) as Hlb.
      destruct (run body me w) as [[[]|e| |] w1]; cbn [fst snd] in *;
        try done.
      split; [by apply IHh|]. by apply run_lockable. }
    destruct (fst (try_catch_all _ _ w)) as [[]|e| |]; try done.
    by apply IHk.
Qed.

Lemma run_all_saved_exc {alloc} (schedule : list (thread_id * block T alloc))
    t w :
  saved_exc (singleton w t) = None ->
  saved_exc (singleton (run_all schedule w) t) = None.
Proof.
  revert w. induction schedule as [|[me p] later IH]; intros w Hw; [done|].
  cbn [run_all]. apply IH. by apply run_saved_exc.
Qed.

End Facts.
End BarrierClientFacts.

(** ** Snippets run with [src/unnamed/part_000] *)
Module FineGrainedClientFacts.
Import FineGrained FineGrainedFacts FineGrainedClient.
Section Facts.
Context {T : Type} `{ValueInit T}.
Abbreviation World := (FineGrained.World T (Client T)).
Implicit Types (w : World) (t : tag) (me : thread_id).

(** The counterpart of [BarrierClientFacts.run_related]. *)
Lemma fine_run_related (Q : World -> World -> Prop) (ok : tag -> Prop) me :
  (forall w, Q w w) ->
  (forall w1 w2 w3, Q w1 w2 -> Q w2 w3 -> Q w1 w3) ->
  (forall w w', (forall t, singleton w' t = singleton w t) -> Q w w') ->
  (forall t v (body : M World unit) w,
      ok t ->
      Q (entered me t v w) (snd (body (entered me t v w))) ->
      Q w (snd (MKMOCK_WITH_ENABLED_HOOK me t (ret v) body w))) ->
  forall (p : block T false),
    (forall t, activates t p -> ok t) ->
    forall w, Q w (snd (run p me w)).
Proof.
  intros Qrefl Qtrans Qsame Qwith p.
  induction p as [|e|t x k IH|d t x k IH|t v body IHb k IHk
                  |body IHb handler IHh k IHk]; intros Hok w; cbn [run].
  - apply Qrefl.
  - apply Qrefl.
  - rewrite snd_bind.
    pose proof (fine_hook_same_hooks me t x w) as Hs.
    destruct (MKMOCK_HOOK true me t x w) as [[a|e| |] w1]; cbn [fst snd] in *;
      try (by apply Qsame).
    eapply Qtrans; [by apply Qsame|]. rewrite snd_bind.
    cbn [observe modify fst snd].
    eapply Qtrans; [|apply IH].
    + by apply Qsame.
    + intros t' Ht'. apply Hok. cbn. by exists a.
  - by destruct (Bool.diff_false_true d).
  - rewrite snd_bind.
    assert (Q w (snd (MKMOCK_WITH_ENABLED_HOOK me t (ret v) (run body me) w)))
      as Hw.
    { apply Qwith; [apply Hok; cbn; by left|].
      apply IHb. intros t' Ht'. apply Hok. cbn. tauto. }
    destruct (MKMOCK_WITH_ENABLED_HOOK me t (ret v) (run body me) w)
      as [[a|e| |] w1]; cbn [fst snd] in *; try done.
    eapply Qtrans; [done|]. apply IHk. intros t' Ht'. apply Hok. cbn. tauto.
  - rewrite snd_bind.
    assert (Q w (snd (try_catch_all (run body me)
                        (fun e => run (handler e) me) w))) as Hw.
    { unfold try_catch_all.
      assert (Q w (snd (run body me w))) as Hb.
      { apply IHb. intros t' Ht'. apply Hok. cbn. tauto. }
      destruct (run body me w) as [[a|e| |] w1]; cbn [fst snd] in *;
        try done.
      eapply Qtrans; [done|]. apply IHh. intros t' Ht'. apply Hok. cbn.
      right; left. by exists e. }
    destruct (try_catch_all _ _ w) as [[a|e| |] w1]; cbn [fst snd] in *;
      try done.
    eapply Qtrans; [done|]. apply IHk. intros t' Ht'. apply Hok. cbn. tauto.
Qed.



(** No run of a snippet leaves a mutex in another state than it found it:
    the locks are taken and released around the assignments only. *)
Lemma fine_run_mutex (p : block T false) me t0 w :
  mutex (singleton (snd (run p me w)) t0) = mutex (singleton w t0).
Proof.
  apply (fine_run_related
           (fun w w' => mutex (singleton w' t0) = mutex (singleton w t0))
           (fun _ => True) me); try done.
  - intros w1 w2 w3 H12 H23. by rewrite H23.
  - intros w1 w2 Hs. by rewrite Hs.
  - clear w. intros t v body w _ Hbody.
    destruct (fine_with_enabled_hook_cases me t v body w)
      as [[_ ->]|[Hm [->| ->]]]; [done| |].
    + rewrite Hbody. destruct (decide (t = t0)) as [<-|Hne].
      * destruct (fine_activate_free me t v w Hm) as [_ ->]. by rewrite Hm.
      * by rewrite fine_entered_lookup_ne.
    + assert (mutex (singleton (entered me t v w) t0)
              = mutex (singleton w t0)) as He.
      { destruct (decide (t = t0)) as [<-|Hne].
        - destruct (fine_activate_free me t v w Hm) as [_ ->]. by rewrite Hm.
        - by rewrite fine_entered_lookup_ne. }
      rewrite He in Hbody.
      destruct (decide (t = t0)) as [<-|Hne].
      * rewrite Hm in Hbody.
        destruct (fine_deactivate_free me t (value (singleton w t)) _ Hbody)
          as [_ ->]. by rewrite Hm.
      * by rewrite fine_deactivate_frame.
Qed.

(** [MKMOCK_WITH_ENABLED_HOOK] ends the way its snippet ends. *)
Lemma fine_with_enabled_hook_transparent (p : block T false) me t v w :
  mutex (singleton w t) = Free ->
  fst (MKMOCK_WITH_ENABLED_HOOK me t (ret v) (run p me) w) =
  fst (run p me (entered me t v w)).
Proof.
  intros Hm.
  assert (mutex (singleton (snd (run p me (entered me t v w))) t) = Free)
    as Hm2.
  { rewrite fine_run_mutex.
    by destruct (fine_activate_free me t v w Hm) as [_ ->]. }
  destruct (run p me (entered me t v w)) as [r w2] eqn:Hrun.
  rewrite (fine_with_enabled_hook_outcome _ _ _ _ _ _ _ Hm Hrun).
  cbn [fst snd] in *.
  destruct (fine_deactivate_free me t (value (singleton w t)) w2 Hm2)
    as [Hd _].
  destruct r as [[]|e| |]; try done.
  - by rewrite fst_bind, Hd.
  - destruct (derives_from_std_exception e); [|done].
    by rewrite fst_bind, Hd.
Qed.



End Facts.
End FineGrainedClientFacts.

(** ** Snippets run with either header *)
Module EquivalenceFacts.
Import BarrierFacts BarrierClientFacts FineGrainedFacts.
Section Facts.
Context {T : Type} `{ValueInit T} `{Nullable T}.
Implicit Types (wb : Barrier.World T (Client T))
  (wf : FineGrained.World T (Client T)) (t : tag) (me : thread_id).






End Facts.
End EquivalenceFacts.

(** * The properties of the specification *)

Section HookCheck.
Context {T R : Type} `{ValueInit T}.

(** C4.  A hook that is not enabled leaves the variable alone: whatever
    [MKMOCK_HOOK] does with either header, the variable holds afterwards
    what it held before, and when the calling thread gets the mutex the
    macro runs to its end with the variable and the state as they were. *)
Theorem hook_disabled_keeps_variable (me : thread_id) (t : tag)
    (variable : T) (wb : Barrier.World T R) (wf : FineGrained.World T R) :
  Barrier.enabled (Barrier.singleton wb t) = false ->
  FineGrained.enabled (FineGrained.singleton wf t) = false ->
  variable_after variable
    (fst (Barrier.MKMOCK_HOOK true me t variable wb)) = variable /\
  variable_after variable
    (fst (FineGrained.MKMOCK_HOOK true me t variable wf)) = variable /\
  (Barrier.lock me (Barrier.mutex (Barrier.singleton wb t)) <> None ->
   exists wb', Barrier.MKMOCK_HOOK true me t variable wb
               = (Normal variable, wb') /\ Barrier.same wb wb') /\
  (FineGrained.mutex (FineGrained.singleton wf t) = FineGrained.Free ->
   exists wf', FineGrained.MKMOCK_HOOK true me t variable wf
               = (Normal variable, wf') /\ FineGrained.same wf wf').
Proof.
  intros Hb Hf.
  assert (Barrier.lock me (Barrier.mutex (Barrier.singleton wb t)) <> None ->
          exists wb', Barrier.MKMOCK_HOOK true me t variable wb
                      = (Normal variable, wb') /\ Barrier.same wb wb') as Hgb.
  { intros Hl. destruct (Barrier.lock me _) as [m|] eqn:Hlock; [|done].
    destruct (BarrierFacts.hook_granted me t variable wb m Hlock)
      as (wb' & Hrun & Hsame).
    exists wb'. by rewrite Hrun, Hb. }
  assert (FineGrained.mutex (FineGrained.singleton wf t) = FineGrained.Free ->
          exists wf', FineGrained.MKMOCK_HOOK true me t variable wf
                      = (Normal variable, wf') /\ FineGrained.same wf wf')
    as Hgf.
  { intros Hm.
    destruct (FineGrainedFacts.fine_hook_free me t variable wf Hm)
      as (wf' & Hrun & Hsame).
    exists wf'. by rewrite Hrun, Hf. }
  repeat split; try done.
  - destruct (Barrier.lock me (Barrier.mutex (Barrier.singleton wb t)))
      as [m|] eqn:Hlock.
    + destruct Hgb as (wb' & -> & _); done.
    + by rewrite BarrierFacts.hook_waits.
  - destruct (FineGrained.mutex (FineGrained.singleton wf t))
      as [|owner] eqn:Hm.
    + destruct Hgf as (wf' & -> & _); done.
    + destruct (decide (owner = me)) as [->|Hne].
      * by rewrite FineGrainedFacts.fine_hook_relock.
      * by erewrite FineGrainedFacts.fine_hook_waits.
Qed.

(** C5.  A hook that is enabled with value [V] puts [V] in the variable,
    whatever the variable held: with either header, [MKMOCK_HOOK] run by a
    thread that gets the mutex ends with [V] in the variable and the state
    as it was. *)
Theorem hook_enabled_overrides_variable (me : thread_id) (t : tag)
    (V variable : T) (wb : Barrier.World T R) (wf : FineGrained.World T R) :
  Barrier.enabled (Barrier.singleton wb t) = true ->
  Barrier.value (Barrier.singleton wb t) = V ->
  Barrier.lock me (Barrier.mutex (Barrier.singleton wb t)) <> None ->
  FineGrained.enabled (FineGrained.singleton wf t) = true ->
  FineGrained.value (FineGrained.singleton wf t) = V ->
  FineGrained.mutex (FineGrained.singleton wf t) = FineGrained.Free ->
  (exists wb', Barrier.MKMOCK_HOOK true me t variable wb = (Normal V, wb')
               /\ Barrier.same wb wb') /\
  (exists wf', FineGrained.MKMOCK_HOOK true me t variable wf = (Normal V, wf')
               /\ FineGrained.same wf wf').
Proof.
  intros Hbe Hbv Hbl Hfe Hfv Hfm. split.
  - destruct (Barrier.lock me _) as [m|] eqn:Hlock; [|done].
    destruct (BarrierFacts.hook_granted me t variable wb m Hlock)
      as (wb' & Hrun & Hsame).
    exists wb'. by rewrite Hrun, Hbe, Hbv.
  - destruct (FineGrainedFacts.fine_hook_free me t variable wf Hfm)
      as (wf' & Hrun & Hsame).
    exists wf'. by rewrite Hrun, Hfe, Hfv.
Qed.

(** C9.  Without [MKMOCK_HOOK_ENABLE] the macros expand to nothing: with
    either header the variable and the whole state are as they were, and
    the deleter, whatever it is, is not run. *)
Theorem hooks_compiled_out `{Nullable T} (me : thread_id) (t : tag)
    (variable : T) (Deleter : T -> M (Barrier.World T R) unit)
    (wb : Barrier.World T R) (wf : FineGrained.World T R) :
  Barrier.MKMOCK_HOOK false me t variable wb = (Normal variable, wb) /\
  Barrier.MKMOCK_HOOK_ALLOC false me t variable Deleter wb
    = (Normal variable, wb) /\
  FineGrained.MKMOCK_HOOK false me t variable wf = (Normal variable, wf).
Proof. repeat split. Qed.

End HookCheck.

Section Snippets.
Context {T : Type} `{ValueInit T} `{Nullable T}.

(** C6.  [MKMOCK_HOOK_ALLOC], run by a thread that gets the mutex, calls the
    deleter once, with what the variable held before the override, when the
    hook is enabled and that content is not null, and does not call it
    otherwise; in particular not when the hook is disabled.  [calls] is
    what the macro adds to the record that the deleter [release] keeps of
    its arguments; when it adds nothing, the macro does the same with any
    other deleter in the place of [release]. *)
Theorem hook_alloc_releases_once (me : thread_id) (t : tag) (variable : T)
    (w : Barrier.World T (Client T)) :
  Barrier.lock me (Barrier.mutex (Barrier.singleton w t)) <> None ->
  exists calls w',
    Barrier.MKMOCK_HOOK_ALLOC true me t variable BarrierClient.release w =
      (Normal (if Barrier.enabled (Barrier.singleton w t)
               then Barrier.value (Barrier.singleton w t) else variable), w')
    /\ freed (Barrier.rest w') = freed (Barrier.rest w) ++ calls
    /\ (calls = [variable] \/ calls = [])
    /\ (calls = [variable] <->
        Barrier.enabled (Barrier.singleton w t) = true /\
        is_nullptr variable = false)
    /\ (Barrier.enabled (Barrier.singleton w t) = false -> calls = [])
    /\ (calls = [] ->
        forall Deleter,
          Barrier.MKMOCK_HOOK_ALLOC true me t variable Deleter w =
          Barrier.MKMOCK_HOOK_ALLOC true me t variable
            BarrierClient.release w).
Proof.
  intros Hl. destruct (Barrier.lock me _) as [m|] eqn:Hlock; [|done].
  destruct (BarrierClientFacts.hook_alloc_granted me t variable w m Hlock)
    as (w' & Hrun & _ & Hfreed & _).
  exists (if Barrier.enabled (Barrier.singleton w t)
             && negb (is_nullptr variable) then [variable] else []), w'.
  split; [done|]. split; [done|].
  assert (Barrier.enabled (Barrier.singleton w t) && negb (is_nullptr variable)
          = false ->
          forall Deleter,
            Barrier.MKMOCK_HOOK_ALLOC true me t variable Deleter w =
            Barrier.MKMOCK_HOOK_ALLOC true me t variable
              BarrierClient.release w) as Hany.
  { intros Hnot Deleter.
    by apply BarrierClientFacts.hook_alloc_no_call. }
  destruct (Barrier.enabled (Barrier.singleton w t)),
           (is_nullptr variable); cbn in Hany |- *;
    (repeat split; try intuition congruence).
Qed.

(** C7, as the code has it.  [enabled] and [saved_value] are paired in every
    state that the macros reach from the start of the process with
    arguments [MockedValue] that are values (a [block] has no others):
    whatever snippets the threads have run, and however each of them ended,
    a singleton that is not enabled has a value-initialised
    [saved_value]. *)
Theorem enabled_saved_value_paired (alloc : bool)
    (schedule : list (thread_id * block T alloc)) (t : tag) :
  Barrier.paired
    (Barrier.singleton
       (BarrierClient.run_all schedule (Barrier.initial no_client)) t).
Proof. by apply BarrierClientFacts.run_all_paired. Qed.

(** C10.  With [mkmock.hpp], when the snippet throws what does not derive
    from [std::exception], [MKMOCK_WITH_ENABLED_HOOK] throws it on and
    leaves the state as the snippet left it, the last block and its
    [unlock] skipped: the mutex of the tag is still owned by the calling
    thread.  It stays so whatever the threads run next, and every macro on
    that tag run by another thread waits. *)
Theorem unrecognized_error_keeps_mutex_locked (alloc : bool)
    (CodeSnippet : block T alloc) (me : thread_id) (t : tag)
    (MockedValue : T) (w w2 : Barrier.World T (Client T)) (e : exn) :
  Barrier.lock me (Barrier.mutex (Barrier.singleton w t)) <> None ->
  BarrierClient.run CodeSnippet me (Barrier.entered me t MockedValue w)
    = (Raise e, w2) ->
  derives_from_std_exception e = false ->
  Barrier.MKMOCK_WITH_ENABLED_HOOK me t (ret MockedValue)
    (BarrierClient.run CodeSnippet me) w = (Raise e, w2) /\
  forall (schedule : list (thread_id * block T alloc)),
    let w3 := BarrierClient.run_all schedule w2 in
    Barrier.held me 0 (Barrier.singleton w3 t) /\
    forall other : thread_id, other <> me ->
      (forall variable,
          Barrier.MKMOCK_HOOK true other t variable w3 = (Blocked, w3)) /\
      (forall variable Deleter,
          Barrier.MKMOCK_HOOK_ALLOC true other t variable Deleter w3
          = (Blocked, w3)) /\
      (forall V snippet,
          Barrier.MKMOCK_WITH_ENABLED_HOOK other t V snippet w3
          = (Blocked, w3)).
Proof.
  intros Hl Hrun Hforeign.
  destruct (Barrier.lock me _) as [m|] eqn:Hlock; [|done].
  split.
  - rewrite (BarrierFacts.with_enabled_hook_outcome _ _ _ _ _ _ _ _
               Hlock Hrun).
    by rewrite Hforeign.
  - intros schedule w3.
    assert (Barrier.held me 0 (Barrier.singleton w2 t)) as Hheld.
    { replace w2 with
        (snd (BarrierClient.run CodeSnippet me
                (Barrier.entered me t MockedValue w))) by (by rewrite Hrun).
      apply BarrierClientFacts.run_held.
      rewrite (BarrierFacts.entered_lookup _ _ _ _ _ Hlock). cbn.
      destruct (Barrier.mutex (Barrier.singleton w t)) as [|o n];
        cbn in Hlock.
      - injection Hlock as <-. exists 0. split; [done|lia].
      - destruct (decide (o = me)); [|done]. injection Hlock as <-.
        exists (S n). split; [done|lia]. }
    assert (Barrier.held me 0 (Barrier.singleton w3 t)) as Hheld3
      by (by apply BarrierClientFacts.run_all_held).
    split; [done|]. intros other Hne.
    pose proof (BarrierClientFacts.held_waits _ _ other _ Hheld3 Hne)
      as Hwait.
    repeat split; intros.
    + by apply BarrierFacts.hook_waits.
    + by apply BarrierClientFacts.hook_alloc_waits.
    + by apply BarrierFacts.with_enabled_hook_waits.
Qed.


End Snippets.

Section ScopedActivation.
Context {T R : Type} `{ValueInit T}.

(** C3, as the code has it.  When the snippet throws what does not derive
    from [std::exception], [MKMOCK_WITH_ENABLED_HOOK] throws it on at once,
    with neither capture nor restoration: with either header the state is
    the one that the snippet left.  When the snippet has left the singleton
    of the tag as the macro set it up, the hook is enabled and holds the
    mocked value. *)
Theorem unrecognized_error_skips_restoration (me : thread_id) (t : tag)
    (MockedValue : T) (e : exn) :
  derives_from_std_exception e = false ->
  (forall (CodeSnippet : M (Barrier.World T R) unit) w w2,
      Barrier.lock me (Barrier.mutex (Barrier.singleton w t)) <> None ->
      CodeSnippet (Barrier.entered me t MockedValue w) = (Raise e, w2) ->
      Barrier.MKMOCK_WITH_ENABLED_HOOK me t (ret MockedValue) CodeSnippet w
        = (Raise e, w2) /\
      (Barrier.singleton w2 t
         = Barrier.singleton (Barrier.entered me t MockedValue w) t ->
       Barrier.enabled (Barrier.singleton w2 t) = true /\
       Barrier.value (Barrier.singleton w2 t) = MockedValue)) /\
  (forall (CodeSnippet : M (FineGrained.World T R) unit) w w2,
      FineGrained.mutex (FineGrained.singleton w t) = FineGrained.Free ->
      CodeSnippet (FineGrained.entered me t MockedValue w) = (Raise e, w2) ->
      FineGrained.MKMOCK_WITH_ENABLED_HOOK me t (ret MockedValue) CodeSnippet w
        = (Raise e, w2) /\
      (FineGrained.singleton w2 t
         = FineGrained.singleton (FineGrained.entered me t MockedValue w) t ->
       FineGrained.enabled (FineGrained.singleton w2 t) = true /\
       FineGrained.value (FineGrained.singleton w2 t) = MockedValue)).
Proof.
  intros Hforeign. split.
  - intros CodeSnippet w w2 Hl Hrun.
    destruct (Barrier.lock me _) as [m|] eqn:Hlock; [|done].
    rewrite (BarrierFacts.with_enabled_hook_outcome _ _ _ _ _ _ _ _
               Hlock Hrun), Hforeign.
    split; [done|]. intros ->.
    by rewrite (BarrierFacts.entered_lookup _ _ _ _ _ Hlock).
  - intros CodeSnippet w w2 Hm Hrun.
    rewrite (FineGrainedFacts.fine_with_enabled_hook_outcome _ _ _ _ _ _ _
               Hm Hrun), Hforeign.
    split; [done|]. intros ->.
    by destruct (FineGrainedFacts.fine_activate_free me t MockedValue w Hm)
      as [_ ->].
Qed.

End ScopedActivation.

(** C3, as the specification has it, fails: a snippet that runs a nested
    [MKMOCK_WITH_ENABLED_HOOK] on the same tag and then throws [42] leaves
    the hook disabled, since the nested macro has disabled it on its way
    out. *)
Lemma unrecognized_error_after_nested_activation :
  ~ (forall (me : thread_id) (t : tag) (V : Z)
            (CodeSnippet : M (Barrier.World Z unit) unit)
            (w w2 : Barrier.World Z unit) (e : exn),
        Barrier.lock me (Barrier.mutex (Barrier.singleton w t)) <> None ->
        CodeSnippet (Barrier.entered me t V w) = (Raise e, w2) ->
        derives_from_std_exception e = false ->
        exists w',
          Barrier.MKMOCK_WITH_ENABLED_HOOK me t (ret V) CodeSnippet w
            = (Raise e, w') /\
          Barrier.enabled (Barrier.singleton w' t) = true /\
          Barrier.value (Barrier.singleton w' t) = V).
Proof.
  intros Hclaim.
  pose (snippet :=
          (Barrier.MKMOCK_WITH_ENABLED_HOOK 0 "api" (ret 2%Z) (ret tt) ;;;
           throw (foreign 42)) : M (Barrier.World Z unit) unit).
  pose (w1 := Barrier.entered 0 "api" 1%Z (Barrier.initial tt)).
  assert (snippet w1 = (Raise (foreign 42), snd (snippet w1))) as Hsnippet.
  { assert (fst (snippet w1) = Raise (foreign 42)) as Hfst
      by (vm_compute; reflexivity).
    destruct (snippet w1) as [r w2]. cbn in Hfst |- *. by rewrite Hfst. }
  destruct (Hclaim 0 "api" 1%Z snippet (Barrier.initial tt)
              (snd (snippet w1)) (foreign 42))
    as (w' & Hrun & Hen & _);
    [vm_compute; discriminate | exact Hsnippet | reflexivity |].
  assert (w' = snd (Barrier.MKMOCK_WITH_ENABLED_HOOK 0 "api" (ret 1%Z) snippet
                      (Barrier.initial tt))) as -> by (by rewrite Hrun).
  vm_compute in Hen. discriminate Hen.
Qed.

(** C1, at the input where [mkmock.hpp] breaks it.  The snippet of
    [MKMOCK_WITH_ENABLED_HOOK(api, 1, ...)] runs
    [MKMOCK_WITH_ENABLED_HOOK(api, 2, MKMOCK_WITH_ENABLED_HOOK(api, 3, ))].
    The middle macro starts with value [1] and returns normally with value
    [0]: the innermost one has overwritten, then cleared, the one
    [saved_value] of the singleton.  With [part_000], where the saved value
    is a local, the value is [1] again. *)
Theorem nested_activation_loses_saved_value :
  let w1 := Barrier.entered 0 "api" 1%Z (Barrier.initial tt) in
  let out :=
    Barrier.MKMOCK_WITH_ENABLED_HOOK 0 "api" (ret 2%Z)
      (Barrier.MKMOCK_WITH_ENABLED_HOOK 0 "api" (ret 3%Z) (ret tt)) w1 in
  let w1' := FineGrained.entered 0 "api" 1%Z (FineGrained.initial tt) in
  let out' :=
    FineGrained.MKMOCK_WITH_ENABLED_HOOK 0 "api" (ret 2%Z)
      (FineGrained.MKMOCK_WITH_ENABLED_HOOK 0 "api" (ret 3%Z) (ret tt)) w1' in
  Barrier.value (Barrier.singleton w1 "api") = 1%Z /\
  fst out = Normal tt /\
  Barrier.enabled (Barrier.singleton (snd out) "api") = false /\
  Barrier.value (Barrier.singleton (snd out) "api") = 0%Z /\
  FineGrained.value (FineGrained.singleton w1' "api") = 1%Z /\
  fst out' = Normal tt /\
  FineGrained.enabled (FineGrained.singleton (snd out') "api") = false /\
  FineGrained.value (FineGrained.singleton (snd out') "api") = 1%Z.
Proof. vm_compute. repeat split. Qed.

(** C2, at the input where [mkmock.hpp] breaks it.  As for C1, with a
    snippet of the middle macro that throws a [std::exception] after the
    innermost macro: the exception is thrown on, the hook is disabled, but
    the value is [0] where it was [1].  With [part_000] it is [1]. *)
Theorem nested_activation_rethrows_without_old_value :
  let boom := std_exception "boom" in
  let w1 := Barrier.entered 0 "api" 1%Z (Barrier.initial tt) in
  let out :=
    Barrier.MKMOCK_WITH_ENABLED_HOOK 0 "api" (ret 2%Z)
      (Barrier.MKMOCK_WITH_ENABLED_HOOK 0 "api" (ret 3%Z) (ret tt) ;;;
       throw boom)
      w1 in
  let w1' := FineGrained.entered 0 "api" 1%Z (FineGrained.initial tt) in
  let out' :=
    FineGrained.MKMOCK_WITH_ENABLED_HOOK 0 "api" (ret 2%Z)
      (FineGrained.MKMOCK_WITH_ENABLED_HOOK 0 "api" (ret 3%Z) (ret tt) ;;;
       throw boom) w1' in
  Barrier.value (Barrier.singleton w1 "api") = 1%Z /\
  fst out = Raise boom /\
  Barrier.enabled (Barrier.singleton (snd out) "api") = false /\
  Barrier.value (Barrier.singleton (snd out) "api") = 0%Z /\
  FineGrained.value (FineGrained.singleton w1' "api") = 1%Z /\
  fst out' = Raise boom /\
  FineGrained.enabled (FineGrained.singleton (snd out') "api") = false /\
  FineGrained.value (FineGrained.singleton (snd out') "api") = 1%Z.
Proof. vm_compute. repeat split. Qed.

(** C7, as the specification has it, fails: an argument [MockedValue] that
    throws leaves the macro between [saved_value = value] and
    [enabled = true].  In the snippet of
    [MKMOCK_WITH_ENABLED_HOOK(api, 1, ...)], a first nested macro on [api]
    leaves the hook disabled with value [1]; a second one, whose argument
    throws [42], saves that [1] and is left at once, and so is the outer
    macro, its handler not catching [42]: the hook is disabled and
    [saved_value] is [1]. *)
Lemma throwing_mocked_value_unpairs_saved_value :
  let snippet : M (Barrier.World Z unit) unit :=
    Barrier.MKMOCK_WITH_ENABLED_HOOK 0 "api" (ret 2%Z) (ret tt) ;;;
    Barrier.MKMOCK_WITH_ENABLED_HOOK 0 "api" (throw (foreign 42)) (ret tt) in
  let w :=
    snd (Barrier.MKMOCK_WITH_ENABLED_HOOK 0 "api" (ret 1%Z) snippet
           (Barrier.initial tt)) in
  ~ Barrier.paired (Barrier.singleton w "api").
Proof.
  intros snippet w Hpaired.
  assert (Barrier.enabled (Barrier.singleton w "api") = false) as Hdisabled
    by (vm_compute; reflexivity).
  specialize (Hpaired Hdisabled). vm_compute in Hpaired.
  discriminate Hpaired.
Qed.

(** * The hypotheses of the properties hold somewhere *)

Lemma hook_disabled_keeps_variable_witness :
  variable_after 7%Z
    (fst (Barrier.MKMOCK_HOOK true 0 "api" 7%Z (Barrier.initial tt))) = 7%Z /\
  variable_after 7%Z
    (fst (FineGrained.MKMOCK_HOOK true 0 "api" 7%Z (FineGrained.initial tt)))
    = 7%Z.
Proof.
  destruct (hook_disabled_keeps_variable (R := unit) 0 "api" 7%Z
              (Barrier.initial tt) (FineGrained.initial tt)
              eq_refl eq_refl) as (Hb & Hf & _).
  exact (conj Hb Hf).
Defined.

Lemma hook_enabled_overrides_variable_witness :
  fst (Barrier.MKMOCK_HOOK true 0 "api" 7%Z
         (Barrier.entered 0 "api" 5%Z (Barrier.initial tt))) = Normal 5%Z /\
  fst (FineGrained.MKMOCK_HOOK true 0 "api" 7%Z
         (FineGrained.entered 0 "api" 5%Z (FineGrained.initial tt)))
    = Normal 5%Z.
Proof.
  destruct (hook_enabled_overrides_variable (R := unit) 0 "api" 5%Z 7%Z
              (Barrier.entered 0 "api" 5%Z (Barrier.initial tt))
              (FineGrained.entered 0 "api" 5%Z (FineGrained.initial tt)))
    as [(wb' & Hb & _) (wf' & Hf & _)];
    [reflexivity | reflexivity | vm_compute; discriminate
    | reflexivity | reflexivity | reflexivity | ].
  rewrite Hb, Hf. split; reflexivity.
Defined.

Lemma hook_alloc_releases_once_witness :
  freed (Barrier.rest
           (snd (Barrier.MKMOCK_HOOK_ALLOC true 0 "malloc" 4096%N
                   BarrierClient.release
                   (Barrier.entered 0 "malloc" 0%N
                      (Barrier.initial no_client))))) = [4096%N].
Proof.
  destruct (hook_alloc_releases_once 0 "malloc" 4096%N
              (Barrier.entered 0 "malloc" 0%N (Barrier.initial no_client)))
    as (calls & w' & Hrun & Hfreed & _ & Hiff & _ & _);
    [vm_compute; discriminate|].
  rewrite Hrun. cbn [snd]. rewrite Hfreed.
  rewrite (proj2 Hiff (conj eq_refl eq_refl)). reflexivity.
Defined.

Lemma unrecognized_error_skips_restoration_witness :
  let w2 := Barrier.entered 0 "api" 1%Z (Barrier.initial tt) in
  let w2' := FineGrained.entered 0 "api" 1%Z (FineGrained.initial tt) in
  (Barrier.MKMOCK_WITH_ENABLED_HOOK 0 "api" (ret 1%Z) (throw (foreign 42))
     (Barrier.initial tt) = (Raise (foreign 42), w2) /\
   Barrier.enabled (Barrier.singleton w2 "api") = true /\
   Barrier.value (Barrier.singleton w2 "api") = 1%Z) /\
  (FineGrained.MKMOCK_WITH_ENABLED_HOOK 0 "api" (ret 1%Z) (throw (foreign 42))
     (FineGrained.initial tt) = (Raise (foreign 42), w2') /\
   FineGrained.enabled (FineGrained.singleton w2' "api") = true /\
   FineGrained.value (FineGrained.singleton w2' "api") = 1%Z).
Proof.
  intros w2 w2'.
  destruct (unrecognized_error_skips_restoration (R := unit)
              0 "api" 1%Z (foreign 42) eq_refl) as [Hbarrier Hfine].
  destruct (Hbarrier (throw (foreign 42)) (Barrier.initial tt) w2)
    as [Hrun Hstate]; [vm_compute; discriminate | reflexivity |].
  destruct (Hfine (throw (foreign 42)) (FineGrained.initial tt) w2')
    as [Hrun' Hstate']; [reflexivity | reflexivity |].
  exact (conj (conj Hrun (Hstate eq_refl)) (conj Hrun' (Hstate' eq_refl))).
Defined.

Lemma unrecognized_error_keeps_mutex_locked_witness :
  let w2 := Barrier.entered 0 "api" 1%N (Barrier.initial no_client) in
  Barrier.MKMOCK_WITH_ENABLED_HOOK 0 "api" (ret 1%N)
    (BarrierClient.run (Throw (alloc := true) (foreign 42)) 0)
    (Barrier.initial no_client) = (Raise (foreign 42), w2) /\
  Barrier.MKMOCK_HOOK true 1 "api" 7%N w2 = (Blocked, w2).
Proof.
  intros w2.
  destruct (unrecognized_error_keeps_mutex_locked true (Throw (foreign 42))
              0 "api" 1%N (Barrier.initial no_client) w2 (foreign 42))
    as [Hrun Hlater]; [vm_compute; discriminate | reflexivity | reflexivity |].
  split; [exact Hrun|].
  destruct (Hlater []) as [_ Hwait].
  destruct (Hwait 1) as (Hhook & _); [discriminate|].
  exact (Hhook 7%N).
Defined.


(** * Where the two headers part *)

(** With nested activations of one tag the headers leave different values
    behind: [mkmock.hpp] the value-initialised one, [part_000] the one that
    the middle activation found. *)
Lemma nested_activation_tells_headers_apart :
  let rb := BarrierClient.run nested_scenario 0 (Barrier.initial no_client) in
  let rf :=
    FineGrainedClient.run nested_scenario 0 (FineGrained.initial no_client) in
  ~ one_at_a_time nested_scenario /\
  fst rb = Raise (foreign 42) /\ fst rf = Raise (foreign 42) /\
  Barrier.enabled (Barrier.singleton (snd rb) "api") = false /\
  FineGrained.enabled (FineGrained.singleton (snd rf) "api") = false /\
  Barrier.value (Barrier.singleton (snd rb) "api") = 0%N /\
  FineGrained.value (FineGrained.singleton (snd rf) "api") = 1%N.
Proof.
  split.
  - cbn. intros [Hnot _]. apply Hnot. by left.
  - vm_compute. repeat split.
Qed.

(** * More on [src/mkmock.hpp] *)

Section BarrierSnippets.
Context {T : Type} `{ValueInit T} `{Nullable T}.

(** X1.  [MKMOCK_WITH_ENABLED_HOOK] of [mkmock.hpp] ends the way its snippet
    ends, for every snippet built from the macros, nested activations of
    the same tag included: it returns when the snippet falls off its end,
    it throws what the snippet threw, whether the handler caught it or not,
    and it throws nothing else. *)
Theorem barrier_macro_ends_as_snippet (alloc : bool)
    (CodeSnippet : block T alloc) (me : thread_id) (t : tag)
    (MockedValue : T) (w : Barrier.World T (Client T)) :
  Barrier.lock me (Barrier.mutex (Barrier.singleton w t)) <> None ->
  fst (Barrier.MKMOCK_WITH_ENABLED_HOOK me t (ret MockedValue)
         (BarrierClient.run CodeSnippet me) w) =
  fst (BarrierClient.run CodeSnippet me
         (Barrier.entered me t MockedValue w)).
Proof. apply BarrierClientFacts.with_enabled_hook_transparent. Qed.

(** X2.  With [mkmock.hpp], when the snippet runs no
    [MKMOCK_WITH_ENABLED_HOOK] on the tag of the macro and ends by its end
    or by a [std::exception], the macro leaves the singleton of the tag
    disabled, with the value it had before, no saved value, no saved
    exception, and the mutex as it was. *)
Theorem barrier_macro_restores_unnested (alloc : bool)
    (CodeSnippet : block T alloc) (me : thread_id) (t : tag)
    (MockedValue : T) (w : Barrier.World T (Client T)) :
  Barrier.lock me (Barrier.mutex (Barrier.singleton w t)) <> None ->
  ~ activates t CodeSnippet ->
  handled (fst (BarrierClient.run CodeSnippet me
                  (Barrier.entered me t MockedValue w))) ->
  Barrier.singleton
    (snd (Barrier.MKMOCK_WITH_ENABLED_HOOK me t (ret MockedValue)
            (BarrierClient.run CodeSnippet me) w)) t =
  {| Barrier.enabled := false;
     Barrier.value := Barrier.value (Barrier.singleton w t);
     Barrier.saved_value := value_init;
     Barrier.saved_exc := None;
     Barrier.mutex := Barrier.mutex (Barrier.singleton w t) |}.
Proof.
  intros Hl Hna Hh.
  destruct (Barrier.lock me _) as [m|] eqn:Hlock; [|done].
  pose proof (BarrierClientFacts.run_untouched CodeSnippet me t
                (Barrier.entered me t MockedValue w) Hna) as Hunt.
  destruct (BarrierClient.run CodeSnippet me
              (Barrier.entered me t MockedValue w)) as [r w2] eqn:Hrun.
  cbn [fst snd] in *.
  by destruct (BarrierFacts.with_enabled_hook_restores me t MockedValue
                 _ w m r w2 Hlock Hrun Hunt Hh) as (_ & -> & _).
Qed.

(** X3.  With [mkmock.hpp] one thread alone always gets through: when it can
    lock every mutex at the start, its snippet, however the activations in
    it nest, ends by its end or by an exception, never waiting for a mutex
    and never unlocking one it does not own; and it can lock every mutex
    afterwards. *)
Theorem barrier_single_thread_progress (alloc : bool) (p : block T alloc)
    (me : thread_id) (w : Barrier.World T (Client T)) :
  (forall t, Barrier.lock me (Barrier.mutex (Barrier.singleton w t))
             <> None) ->
  completes (fst (BarrierClient.run p me w)) /\
  forall t,
    Barrier.lock me
      (Barrier.mutex (Barrier.singleton (snd (BarrierClient.run p me w)) t))
    <> None.
Proof.
  intros Hw. split.
  - by apply BarrierClientFacts.run_completes.
  - by apply BarrierClientFacts.run_lockable.
Qed.

(** X4.  No exception stays behind in [saved_exc]: whatever snippets the threads
    have run since the start of the process, and however each ended, the
    [saved_exc] of every singleton is empty. *)
Theorem saved_exc_never_stale (alloc : bool)
    (schedule : list (thread_id * block T alloc)) (t : tag) :
  Barrier.saved_exc
    (Barrier.singleton
       (BarrierClient.run_all schedule (Barrier.initial no_client)) t)
  = None.
Proof. by apply BarrierClientFacts.run_all_saved_exc. Qed.

(** X5.  While the snippet of [MKMOCK_WITH_ENABLED_HOOK] runs, [mkmock.hpp] keeps
    the other threads out.  [schedule] is what has run since the first
    block of the macro: the snippet as far as it got, and whatever other
    threads tried.  In the state reached, every other thread waits in
    [MKMOCK_HOOK], in [MKMOCK_HOOK_ALLOC] and in
    [MKMOCK_WITH_ENABLED_HOOK] on that tag, whatever their arguments; and
    the thread of the macro reads the mocked value through [MKMOCK_HOOK],
    its lock of the recursive mutex granted, as long as nothing that has
    run activated the tag again. *)
Theorem barrier_keeps_other_threads_out (alloc : bool)
    (schedule : list (thread_id * block T alloc)) (me : thread_id) (t : tag)
    (MockedValue variable : T) (w : Barrier.World T (Client T)) :
  Barrier.lock me (Barrier.mutex (Barrier.singleton w t)) <> None ->
  let w2 :=
    BarrierClient.run_all schedule (Barrier.entered me t MockedValue w) in
  (Forall (fun s => ~ activates t (snd s)) schedule ->
   exists w', Barrier.MKMOCK_HOOK true me t variable w2
              = (Normal MockedValue, w') /\ Barrier.same w2 w') /\
  forall other : thread_id, other <> me ->
    Barrier.MKMOCK_HOOK true other t variable w2 = (Blocked, w2) /\
    (forall Deleter,
        Barrier.MKMOCK_HOOK_ALLOC true other t variable Deleter w2
        = (Blocked, w2)) /\
    (forall V snippet,
        Barrier.MKMOCK_WITH_ENABLED_HOOK other t V snippet w2
        = (Blocked, w2)).
Proof.
  intros Hl w2. destruct (Barrier.lock me _) as [m|] eqn:Hlock; [|done].
  destruct (BarrierFacts.lock_owned _ _ _ Hlock) as [k ->].
  pose proof (BarrierFacts.entered_lookup me t MockedValue w _ Hlock) as He.
  split.
  - intros Hquiet.
    pose proof (BarrierClientFacts.run_all_untouched schedule t
                  (Barrier.entered me t MockedValue w) Hquiet) as Hunt.
    fold w2 in Hunt. rewrite He in Hunt.
    destruct (BarrierFacts.hook_granted me t variable w2
                (Barrier.Locked me (S k))) as (w' & Hrun & Hsame).
    { rewrite Hunt. cbn. by rewrite decide_True. }
    exists w'. rewrite Hrun, Hunt. by cbn.
  - intros other Hne.
    assert (Barrier.held me 0 (Barrier.singleton w2 t)) as Hheld.
    { apply BarrierClientFacts.run_all_held. rewrite He.
      exists k. split; [done|lia]. }
    pose proof (BarrierClientFacts.held_waits _ _ other _ Hheld Hne)
      as Hwait.
    split; [by apply BarrierFacts.hook_waits|]. split.
    + intros Deleter. by apply BarrierClientFacts.hook_alloc_waits.
    + intros V snippet. by apply BarrierFacts.with_enabled_hook_waits.
Qed.

End BarrierSnippets.

Section BarrierMacros.
Context {T R : Type} `{ValueInit T} `{Nullable T}.
Implicit Types (w : Barrier.World T R) (t : tag) (me : thread_id).

(** X6.  Tags do not get in each other's way: what [MKMOCK_HOOK] does on one
    tag is the same inside and outside an activation of another tag, by
    whatever thread. *)
Theorem barrier_tags_independent (a b : thread_id) (t1 t2 : tag)
    (MockedValue variable : T) w :
  t1 <> t2 ->
  fst (Barrier.MKMOCK_HOOK true b t2 variable
         (Barrier.entered a t1 MockedValue w)) =
  fst (Barrier.MKMOCK_HOOK true b t2 variable w).
Proof.
  intros Hne.
  pose proof (BarrierFacts.entered_lookup_ne a t1 MockedValue w t2 Hne)
    as He.
  destruct (Barrier.lock b (Barrier.mutex (Barrier.singleton w t2)))
    as [m|] eqn:Hl.
  - destruct (BarrierFacts.hook_granted b t2 variable w m Hl)
      as (w' & -> & _).
    destruct (BarrierFacts.hook_granted b t2 variable
                (Barrier.entered a t1 MockedValue w) m) as (w'' & -> & _).
    { by rewrite He. }
    by rewrite He.
  - rewrite !BarrierFacts.hook_waits; try done. by rewrite He.
Qed.

(** X7.  When the deleter throws, [MKMOCK_HOOK_ALLOC] throws the same on: the
    lock guard releases the mutex on the way out, so the singletons are as
    they were, and the variable has not been assigned. *)
Theorem hook_alloc_deleter_throws me t (variable : T) (e : exn) w :
  Barrier.lock me (Barrier.mutex (Barrier.singleton w t)) <> None ->
  Barrier.enabled (Barrier.singleton w t) = true ->
  is_nullptr variable = false ->
  exists w',
    Barrier.MKMOCK_HOOK_ALLOC true me t variable (fun _ => throw e) w
    = (Raise e, w') /\ Barrier.same w w'.
Proof.
  intros Hl Hen Hnull.
  destruct (Barrier.lock me _) as [m|] eqn:Hlock; [|done].
  pose proof (BarrierFacts.lock_unlock _ _ _ Hlock) as Hu.
  unfold Barrier.MKMOCK_HOOK_ALLOC, Barrier.unique_lock, bind at 1.
  rewrite (BarrierFacts.mutex_lock_granted _ _ _ _ Hlock).
  unfold bind, gets, throw, Barrier.mutex_unlock.
  rewrite BarrierFacts.lookup_with_inst_eq. cbn. rewrite Hen, Hnull. cbn.
  rewrite BarrierFacts.lookup_with_inst_eq. cbn. rewrite Hu.
  eexists; split; [done|]. split; [|done]. intros t'.
  rewrite BarrierFacts.lookup_with_inst. case_decide; subst.
  - rewrite BarrierFacts.lookup_with_inst_eq.
    by destruct (Barrier.singleton w t').
  - by rewrite BarrierFacts.lookup_with_inst_ne.
Qed.

(** X8.  [MKMOCK_HOOK_ALLOC] is [MKMOCK_HOOK] when there is nothing to free:
    when the hook is disabled or the variable is null, the two macros do
    the same, whatever the deleter. *)
Theorem hook_alloc_is_hook_when_nothing_to_free me t (variable : T)
    (Deleter : T -> M (Barrier.World T R) unit) w :
  Barrier.enabled (Barrier.singleton w t) && negb (is_nullptr variable)
    = false ->
  Barrier.MKMOCK_HOOK_ALLOC true me t variable Deleter w =
  Barrier.MKMOCK_HOOK true me t variable w.
Proof.
  intros Hnot.
  unfold Barrier.MKMOCK_HOOK_ALLOC, Barrier.MKMOCK_HOOK, Barrier.unique_lock,
    bind, Barrier.mutex_lock.
  destruct (Barrier.lock me _) as [m|]; [|done].
  unfold gets. rewrite BarrierFacts.lookup_with_inst_eq. cbn.
  destruct (Barrier.enabled (Barrier.singleton w t)),
           (is_nullptr variable); cbn in Hnot |- *;
    rewrite ?BarrierFacts.lookup_with_inst_eq; try reflexivity;
    discriminate Hnot.
Qed.

(** X9.  Activations of two tags nest: inside both, [MKMOCK_HOOK] reads on each
    tag the value mocked for it. *)
Theorem barrier_nested_tags_both_mocked me (t1 t2 : tag)
    (V1 V2 variable : T) w :
  t1 <> t2 ->
  Barrier.lock me (Barrier.mutex (Barrier.singleton w t1)) <> None ->
  Barrier.lock me (Barrier.mutex (Barrier.singleton w t2)) <> None ->
  let w2 := Barrier.entered me t2 V2 (Barrier.entered me t1 V1 w) in
  fst (Barrier.MKMOCK_HOOK true me t1 variable w2) = Normal V1 /\
  fst (Barrier.MKMOCK_HOOK true me t2 variable w2) = Normal V2.
Proof.
  intros Hne Hl1 Hl2 w2.
  destruct (Barrier.lock me (Barrier.mutex (Barrier.singleton w t1)))
    as [m1|] eqn:Hlock1; [|done].
  destruct (Barrier.lock me (Barrier.mutex (Barrier.singleton w t2)))
    as [m2|] eqn:Hlock2; [|done].
  destruct (BarrierFacts.lock_owned _ _ _ Hlock1) as [k1 ->].
  destruct (BarrierFacts.lock_owned _ _ _ Hlock2) as [k2 ->].
  pose proof (BarrierFacts.entered_lookup me t1 V1 w _ Hlock1) as He1.
  assert (Barrier.singleton w2 t1 = Barrier.singleton
            (Barrier.entered me t1 V1 w) t1) as Hw21
    by (by apply BarrierFacts.entered_lookup_ne).
  assert (Barrier.singleton w2 t2 =
          {| Barrier.enabled := true; Barrier.value := V2;
             Barrier.saved_value :=
               Barrier.value (Barrier.singleton w t2);
             Barrier.saved_exc := None;
             Barrier.mutex := Barrier.Locked me k2 |}) as Hw22.
  { unfold w2. erewrite BarrierFacts.entered_lookup.
    - by rewrite BarrierFacts.entered_lookup_ne.
    - by rewrite BarrierFacts.entered_lookup_ne. }
  split.
  - destruct (BarrierFacts.hook_granted me t1 variable w2
                (Barrier.Locked me (S k1))) as (w' & -> & _).
    { rewrite Hw21, He1. cbn. by rewrite decide_True. }
    by rewrite Hw21, He1.
  - destruct (BarrierFacts.hook_granted me t2 variable w2
                (Barrier.Locked me (S k2))) as (w' & -> & _).
    { rewrite Hw22. cbn. by rewrite decide_True. }
    by rewrite Hw22.
Qed.

(** X15.  When the argument [MockedValue] throws, [MKMOCK_WITH_ENABLED_HOOK]
    of [mkmock.hpp] throws the same on, whatever it derives from, without
    running the snippet: the expression is evaluated outside the [try].
    The macro leaves the mutex locked once more, [saved_value] equal to
    [value], [saved_exc] empty, [enabled] and [value] as they were, and
    everything else untouched. *)
Theorem barrier_argument_throws me t (e : exn)
    (CodeSnippet : M (Barrier.World T R) unit) w :
  Barrier.lock me (Barrier.mutex (Barrier.singleton w t)) <> None ->
  let out :=
    Barrier.MKMOCK_WITH_ENABLED_HOOK me t (throw e) CodeSnippet w in
  fst out = Raise e /\
  (exists m,
      Barrier.lock me (Barrier.mutex (Barrier.singleton w t)) = Some m /\
      Barrier.singleton (snd out) t =
        {| Barrier.enabled := Barrier.enabled (Barrier.singleton w t);
           Barrier.value := Barrier.value (Barrier.singleton w t);
           Barrier.saved_value := Barrier.value (Barrier.singleton w t);
           Barrier.saved_exc := None;
           Barrier.mutex := m |}) /\
  (forall t', t <> t' ->
      Barrier.singleton (snd out) t' = Barrier.singleton w t') /\
  Barrier.rest (snd out) = Barrier.rest w.
Proof.
  intros Hl out. subst out.
  destruct (Barrier.lock me _) as [m|] eqn:Hlock; [|done].
  unfold Barrier.MKMOCK_WITH_ENABLED_HOOK, Barrier.activate, modify, throw,
    bind, Barrier.mutex_lock.
  rewrite Hlock. cbn.
  split; [done|]. split; [|split; [|done]].
  - exists m. split; [done|].
    by rewrite !BarrierFacts.lookup_with_inst_eq.
  - intros t' Hne. by rewrite !BarrierFacts.lookup_with_inst_ne.
Qed.

End BarrierMacros.

(** * More on [src/unnamed/part_000] *)

Section FineGrainedSnippets.
Context {T : Type} `{ValueInit T}.


(** X11.  [MKMOCK_WITH_ENABLED_HOOK] of [part_000] ends the way its snippet ends,
    for every snippet built from the macros: it returns when the snippet
    falls off its end and throws what the snippet threw. *)
Theorem fine_macro_ends_as_snippet (CodeSnippet : block T false)
    (me : thread_id) (t : tag) (MockedValue : T)
    (w : FineGrained.World T (Client T)) :
  FineGrained.mutex (FineGrained.singleton w t) = FineGrained.Free ->
  fst (FineGrained.MKMOCK_WITH_ENABLED_HOOK me t (ret MockedValue)
         (FineGrainedClient.run CodeSnippet me) w) =
  fst (FineGrainedClient.run CodeSnippet me
         (FineGrained.entered me t MockedValue w)).
Proof. apply FineGrainedClientFacts.fine_with_enabled_hook_transparent. Qed.

(** X12.  With [part_000] the macro restores the hook after every snippet built
    from the macros that ends by its end or by a [std::exception], nested
    activations of the same tag included: the singleton of the tag is
    disabled and has the value it had before. *)
Theorem fine_macro_restores_every_snippet (CodeSnippet : block T false)
    (me : thread_id) (t : tag) (MockedValue : T)
    (w : FineGrained.World T (Client T)) :
  FineGrained.mutex (FineGrained.singleton w t) = FineGrained.Free ->
  handled (fst (FineGrainedClient.run CodeSnippet me
                  (FineGrained.entered me t MockedValue w))) ->
  FineGrained.singleton
    (snd (FineGrained.MKMOCK_WITH_ENABLED_HOOK me t (ret MockedValue)
            (FineGrainedClient.run CodeSnippet me) w)) t =
  {| FineGrained.enabled := false;
     FineGrained.value := FineGrained.value (FineGrained.singleton w t);
     FineGrained.mutex := FineGrained.Free |}.
Proof.
  intros Hm Hh.
  assert (FineGrained.mutex
            (FineGrained.singleton
               (snd (FineGrainedClient.run CodeSnippet me
                       (FineGrained.entered me t MockedValue w))) t)
          = FineGrained.Free) as Hm2.
  { rewrite FineGrainedClientFacts.fine_run_mutex.
    by destruct (FineGrainedFacts.fine_activate_free me t MockedValue w Hm)
      as [_ ->]. }
  destruct (FineGrainedClient.run CodeSnippet me
              (FineGrained.entered me t MockedValue w)) as [r w2] eqn:Hrun.
  cbn [fst snd] in *.
  by destruct (FineGrainedFacts.fine_with_enabled_hook_restores me t
                 MockedValue _ w r w2 Hm Hrun Hm2 Hh) as (_ & -> & _).
Qed.



End FineGrainedSnippets.


Section FineGrainedMacros.
Context {T R : Type} `{ValueInit T}.

(** X16.  When the argument [MockedValue] throws, [MKMOCK_WITH_ENABLED_HOOK]
    of [part_000] throws the same on without running the snippet, and the
    lock guard of the first block releases the mutex: every singleton is as
    it was. *)
Theorem fine_argument_throws (me : thread_id) (t : tag) (e : exn)
    (CodeSnippet : M (FineGrained.World T R) unit)
    (w : FineGrained.World T R) :
  FineGrained.mutex (FineGrained.singleton w t) = FineGrained.Free ->
  let out :=
    FineGrained.MKMOCK_WITH_ENABLED_HOOK me t (throw e) CodeSnippet w in
  fst out = Raise e /\ FineGrained.same w (snd out).
Proof.
  intros Hm out. subst out.
  unfold FineGrained.MKMOCK_WITH_ENABLED_HOOK, FineGrained.activate,
    FineGrained.unique_lock, bind, gets, throw, FineGrained.mutex_lock,
    FineGrained.mutex_unlock.
  rewrite Hm. cbn. rewrite !FineGrainedFacts.fine_lookup_with_inst_eq. cbn.
  rewrite !decide_True by done. cbn.
  split; [done|]. split; [|done]. intros t'.
  rewrite !FineGrainedFacts.fine_lookup_with_inst.
  case_decide; [subst|done]. rewrite decide_True by done.
  destruct (FineGrained.singleton w t') eqn:Hi. cbn in *. by subst.
Qed.

End FineGrainedMacros.

(** * The hypotheses of these properties hold somewhere *)

Lemma barrier_macro_ends_as_snippet_witness :
  fst (Barrier.MKMOCK_WITH_ENABLED_HOOK 0 "api" (ret 1%N)
         (BarrierClient.run
            (WithEnabledHook (alloc := false) "api" 2%N Done
               (Throw (std_exception "boom"))) 0)
         (Barrier.initial no_client)) = Raise (std_exception "boom").
Proof.
  rewrite barrier_macro_ends_as_snippet by (vm_compute; discriminate).
  vm_compute. reflexivity.
Defined.

Lemma barrier_macro_restores_unnested_witness :
  Barrier.value
    (Barrier.singleton
       (snd (Barrier.MKMOCK_WITH_ENABLED_HOOK 0 "retcode" (ret 1%N)
               (BarrierClient.run
                  (Hook (alloc := false) "retcode" 0%N
                     (fun rv => if N.eqb rv 1 then Done
                                else Throw (std_exception "unexpected"))) 0)
               (Barrier.initial no_client))) "retcode") = 0%N.
Proof.
  rewrite barrier_macro_restores_unnested.
  - reflexivity.
  - vm_compute. discriminate.
  - intros [v Hv]. by destruct (N.eqb v 1).
  - vm_compute. exact I.
Defined.

Lemma barrier_single_thread_progress_witness :
  completes
    (fst (BarrierClient.run nested_scenario 0 (Barrier.initial no_client))).
Proof.
  apply (barrier_single_thread_progress false nested_scenario 0
           (Barrier.initial no_client)).
  intros t. cbn. discriminate.
Defined.

Lemma barrier_keeps_other_threads_out_witness :
  let w2 :=
    BarrierClient.run_all
      [(0, Hook (alloc := false) "api" 7%N (fun _ => Done));
       (1, Hook "other" 7%N (fun _ => Done))]
      (Barrier.entered 0 "api" 5%N (Barrier.initial no_client)) in
  fst (Barrier.MKMOCK_HOOK true 0 "api" 7%N w2) = Normal 5%N /\
  fst (Barrier.MKMOCK_HOOK true 1 "api" 7%N w2) = Blocked.
Proof.
  intros w2.
  destruct (barrier_keeps_other_threads_out false
              [(0, Hook (alloc := false) "api" 7%N (fun _ => Done));
               (1, Hook "other" 7%N (fun _ => Done))]
              0 "api" 5%N 7%N (Barrier.initial no_client))
    as [Hown Hothers]; [vm_compute; discriminate|].
  destruct Hown as (w' & Hown & _).
  { repeat constructor; cbn; by intros [v Hv]. }
  destruct (Hothers 1) as (Hhook & _); [discriminate|].
  exact (conj (f_equal fst Hown) (f_equal fst Hhook)).
Defined.

Lemma barrier_tags_independent_witness :
  fst (Barrier.MKMOCK_HOOK true 1 "read" 7%N
         (Barrier.entered 0 "open" 5%N (Barrier.initial tt))) =
  fst (Barrier.MKMOCK_HOOK true 1 "read" 7%N (Barrier.initial tt)).
Proof.
  apply (barrier_tags_independent (R := unit) 0 1 "open" "read" 5%N 7%N
           (Barrier.initial tt)).
  discriminate.
Defined.

Lemma hook_alloc_deleter_throws_witness :
  fst (Barrier.MKMOCK_HOOK_ALLOC true 0 "malloc" 4096%N
         (fun _ => throw (std_exception "double free"))
         (Barrier.entered 0 "malloc" 0%N (Barrier.initial tt)))
  = Raise (std_exception "double free").
Proof.
  destruct (hook_alloc_deleter_throws (R := unit) 0 "malloc" 4096%N
              (std_exception "double free")
              (Barrier.entered 0 "malloc" 0%N (Barrier.initial tt)))
    as (w' & Hrun & _);
    [vm_compute; discriminate | vm_compute; reflexivity | reflexivity |].
  exact (f_equal fst Hrun).
Defined.

Lemma hook_alloc_is_hook_when_nothing_to_free_witness :
  Barrier.MKMOCK_HOOK_ALLOC true 0 "malloc" 4096%N
    (fun _ => throw (std_exception "never called")) (Barrier.initial tt) =
  Barrier.MKMOCK_HOOK true 0 "malloc" 4096%N (Barrier.initial tt).
Proof.
  apply (hook_alloc_is_hook_when_nothing_to_free (R := unit)).
  reflexivity.
Defined.

Lemma barrier_nested_tags_both_mocked_witness :
  let w2 :=
    Barrier.entered 0 "read" 2%N
      (Barrier.entered 0 "open" 1%N (Barrier.initial tt)) in
  fst (Barrier.MKMOCK_HOOK true 0 "open" 0%N w2) = Normal 1%N /\
  fst (Barrier.MKMOCK_HOOK true 0 "read" 0%N w2) = Normal 2%N.
Proof.
  apply (barrier_nested_tags_both_mocked (R := unit) 0 "open" "read"
           1%N 2%N 0%N (Barrier.initial tt));
    [discriminate | vm_compute; discriminate | vm_compute; discriminate].
Defined.

Lemma fine_macro_ends_as_snippet_witness :
  fst (FineGrained.MKMOCK_WITH_ENABLED_HOOK 0 "api" (ret 1%N)
         (FineGrainedClient.run
            (WithEnabledHook "api" 2%N Done (Throw (foreign 42))) 0)
         (FineGrained.initial no_client)) = Raise (foreign 42).
Proof.
  rewrite fine_macro_ends_as_snippet by reflexivity.
  vm_compute. reflexivity.
Defined.

Lemma fine_macro_restores_every_snippet_witness :
  FineGrained.value
    (FineGrained.singleton
       (snd (FineGrained.MKMOCK_WITH_ENABLED_HOOK 0 "api" (ret 2%N)
               (FineGrainedClient.run
                  (WithEnabledHook "api" 3%N Done Done) 0)
               (FineGrained.entered 0 "api" 1%N
                  (FineGrained.initial no_client)))) "api") = 1%N.
Proof.
  rewrite fine_macro_restores_every_snippet.
  - vm_compute. reflexivity.
  - vm_compute. reflexivity.
  - vm_compute. exact I.
Defined.



Lemma barrier_argument_throws_witness :
  let out :=
    Barrier.MKMOCK_WITH_ENABLED_HOOK 0 "api" (throw (std_exception "bad"))
      (ret tt) (Barrier.initial (T := Z) tt) in
  fst out = Raise (std_exception "bad") /\
  Barrier.rest (snd out) = tt.
Proof.
  intros out.
  destruct (barrier_argument_throws (T := Z) (R := unit) 0 "api"
              (std_exception "bad") (ret tt) (Barrier.initial tt))
    as (Hraise & _ & _ & Hrest); [vm_compute; discriminate|].
  exact (conj Hraise Hrest).
Defined.

Lemma fine_argument_throws_witness :
  fst (FineGrained.MKMOCK_WITH_ENABLED_HOOK 0 "api"
         (throw (std_exception "bad")) (ret tt)
         (FineGrained.initial (T := Z) tt))
  = Raise (std_exception "bad").
Proof.
  destruct (fine_argument_throws (T := Z) (R := unit) 0 "api"
              (std_exception "bad") (ret tt) (FineGrained.initial tt))
    as [Hraise _]; [reflexivity|].
  exact Hraise.
Defined.
